(** * j5_interface: the J5 example ROS node

    A shallow embedding of [src/j5_interface/src/j5_interface.cpp]:
    the command builder [getCommandMsg], the status callback
    [statusMsgHandler] and the publish loop of [main].

    Floating-point values are IEEE 754 values in the sense of
    [SpecFloat.spec_float]: C++ [float] is binary32, C++ [double]
    (the [float64] fields of [geometry_msgs/Twist]) is binary64. *)

From Stdlib Require Import ZArith List Bool String Ascii Lia.
From Stdlib Require Import Floats.SpecFloat.
Import ListNotations.

Local Open Scope Z_scope.

(* ================================================================== *)
(** * Floating-point formats *)
(* ================================================================== *)

Module Binary32.
Definition prec : Z := 24.
Definition emax : Z := 128.
Definition normalize (m e : Z) : spec_float :=
  binary_normalize prec emax m e false.
Definition div (x y : spec_float) : spec_float := SFdiv prec emax x y.
Definition valid (x : spec_float) : bool := valid_binary prec emax x.
End Binary32.

Module Binary64.
Definition prec : Z := 53.
Definition emax : Z := 1024.
Definition round (s : bool) (m : positive) (e : Z) : spec_float :=
  binary_round prec emax s m e.
Definition of_Z (n : Z) : spec_float :=
  binary_normalize prec emax n 0 false.
Definition valid (x : spec_float) : bool := valid_binary prec emax x.
End Binary64.

(** A C++ [float] and a C++ [double]; both carry IEEE values, the name
    records the format the value is canonical in. *)
Definition float := spec_float.
Definition double := spec_float.

(** Implicit conversion [float -> double]: exact, the mantissa is
    re-aligned to the binary64 canonical exponent. *)
Definition double_of_float (x : float) : double :=
  match x with
  | S754_finite s m e => Binary64.round s m e
  | _ => x
  end.

(** [operator<] on doubles: false as soon as one side is a NaN. *)
Definition flt (a b : double) : bool := SFltb a b.

(** [operator<=] and [fabs], used to state bounds. *)
Definition fle (a b : double) : bool := SFleb a b.
Definition fabs (a : double) : double := SFabs a.
Definition fneg (a : double) : double := SFopp a.

Definition is_nan (a : spec_float) : bool :=
  match a with S754_nan => true | _ => false end.

(** [std::max(a, b)] is [(a < b) ? b : a]; [std::min(a, b)] is
    [(b < a) ? b : a]. *)
Definition std_max (a b : double) : double := if flt a b then b else a.
Definition std_min (a b : double) : double := if flt b a then b else a.

(* ================================================================== *)
(** * Constants of the node *)
(* ================================================================== *)

(** [const float DefaultVelocityCmd = 0.0;] *)
Definition DefaultVelocityCmd : float := S754_zero false.

(** [const float DefaultTurnRateCmd = 0.0;] *)
Definition DefaultTurnRateCmd : float := S754_zero false.

(** [const int LoopRate = 10;] *)
Definition LoopRate : Z := 10.

(** [const double MaxVelocityCommand = 3.0;] *)
Definition MaxVelocityCommand : double := Eval vm_compute in Binary64.of_Z 3.

(** [const double MaxTurnRateCommand = 1.0;] *)
Definition MaxTurnRateCommand : double := Eval vm_compute in Binary64.of_Z 1.

(** The value [0.0] as a double. *)
Definition zero : double := S754_zero false.

(** The clamping sequence of the source, lines 114-115 and 129-130:
    [x = std::max(x, -limit); x = std::min(x, limit);] *)
Definition clamp_code (limit x : double) : double :=
  std_min (std_max x (fneg limit)) limit.

(** The spec's [clamp(v, lo, hi)]: bound a value to the closed interval
    [[lo, hi]]. *)
Definition clamp (v lo hi : double) : double :=
  if flt v lo then lo else if flt hi v then hi else v.

(* ================================================================== *)
(** * The parse primitive: [std::stof]

    [std::stof(str)] calls [strtof(str.c_str(), &endptr)] with [errno]
    cleared; it throws [std::invalid_argument] when no conversion was
    performed ([endptr == str]) and [std::out_of_range] when [errno] is
    [ERANGE]; otherwise it returns the converted [float].

    [strtof] is modelled for the "C" locale and the default rounding
    mode (to nearest, ties to even): optional white space, optional
    sign, then [inf]/[infinity], [nan], a hexadecimal or a decimal
    floating constant; the longest valid prefix is converted and what
    follows it is left unread.  [ERANGE] is set on overflow and, as
    glibc does where the C standard leaves it to the implementation, on
    a tiny inexact result; tininess is that of the value read, before
    rounding, so that a value just below the least normal float that
    rounds up to it is a range error too. *)
(* ================================================================== *)

Module Strtof.

Definition code (c : ascii) : Z := Z.of_N (N_of_ascii c).

(** [isspace] in the "C" locale: space, and [\t \n \v \f \r]. *)
Definition isspace (c : ascii) : bool :=
  let n := code c in (n =? 32) || ((9 <=? n) && (n <=? 13)).

Definition tolower (c : ascii) : ascii :=
  let n := code c in
  if (65 <=? n) && (n <=? 90) then ascii_of_N (Z.to_N (n + 32)) else c.

Definition digit_value (c : ascii) : option Z :=
  let n := code c in
  if (48 <=? n) && (n <=? 57) then Some (n - 48) else None.

Definition xdigit_value (c : ascii) : option Z :=
  match digit_value c with
  | Some d => Some d
  | None =>
      let n := code (tolower c) in
      if (97 <=? n) && (n <=? 102) then Some (n - 87) else None
  end.

Fixpoint skip_space (cs : list ascii) : list ascii :=
  match cs with
  | c :: cs' => if isspace c then skip_space cs' else cs
  | [] => []
  end.

(** An optional sign; [true] for [-]. *)
Definition scan_sign (cs : list ascii) : bool * list ascii :=
  match cs with
  | "-"%char :: cs' => (true, cs')
  | "+"%char :: cs' => (false, cs')
  | _ => (false, cs)
  end.

(** Case-insensitive prefix test; [p] is given in lower case. *)
Fixpoint prefix_nocase (p cs : list ascii) : bool :=
  match p, cs with
  | [], _ => true
  | a :: p', c :: cs' => Ascii.eqb a (tolower c) && prefix_nocase p' cs'
  | _ :: _, [] => false
  end.

(** The longest run of digits in the given base: accumulated value,
    number of digits read, and the unread rest. *)
Fixpoint scan_digits (base : Z) (val : ascii -> option Z)
         (acc n : Z) (cs : list ascii) : Z * Z * list ascii :=
  match cs with
  | c :: cs' =>
      match val c with
      | Some d => scan_digits base val (base * acc + d) (n + 1) cs'
      | None => (acc, n, cs)
      end
  | [] => (acc, n, cs)
  end.

(** Digits with an optional radix character; at least one digit is
    required.  Returns the integer made of all digits, the number of
    digits after the radix character, and the rest. *)
Definition scan_mantissa (base : Z) (val : ascii -> option Z)
           (cs : list ascii) : option (Z * Z * list ascii) :=
  let '(m, ni, r1) := scan_digits base val 0 0 cs in
  match r1 with
  | "."%char :: r2 =>
      let '(m', nf, r3) := scan_digits base val m 0 r2 in
      if 0 <? ni + nf then Some (m', nf, r3) else None
  | _ => if 0 <? ni then Some (m, 0, r1) else None
  end.

(** An optional exponent part introduced by [marker] ([e] or [p]):
    it counts only when at least one digit follows the optional sign. *)
Definition scan_exponent (marker : ascii) (cs : list ascii) : Z :=
  match cs with
  | c :: r =>
      if Ascii.eqb marker (tolower c) then
        let '(neg, r') := scan_sign r in
        let '(e, n, _) := scan_digits 10 digit_value 0 0 r' in
        if 0 <? n then (if neg then - e else e) else 0
      else 0
  | [] => 0
  end.

(** The binary32 value nearest to [(-1)^neg * m * 2^e2 * 10^e10]. *)
Definition nearest (neg : bool) (m e2 e10 : Z) : float :=
  match m with
  | Zpos p =>
      if 0 <=? e10
      then Binary32.normalize (cond_Zopp neg (m * 10 ^ e10)) e2
      else Binary32.div (S754_finite neg p e2)
                        (S754_finite false (Z.to_pos (10 ^ (- e10))) 0)
  | _ => S754_zero neg
  end.

(** Whether [mr * 2^er] equals [m * 2^e2 * 10^e10]. *)
Definition exact (mr er m e2 e10 : Z) : bool :=
  mr * 2 ^ Z.max (er - e2) 0 * 10 ^ Z.max (- e10) 0
  =? m * 2 ^ Z.max (e2 - er) 0 * 10 ^ Z.max e10 0.

(** Whether [m * 2^e2 * 10^e10] is below the least normal float,
    [2^(2 - emax)]. *)
Definition below_normal (m e2 e10 : Z) : bool :=
  let k := e2 + (Binary32.emax - 2) in
  m * 2 ^ Z.max k 0 * 10 ^ Z.max e10 0
  <? 2 ^ Z.max (- k) 0 * 10 ^ Z.max (- e10) 0.

(** [errno == ERANGE] after the conversion: the result overflowed, or
    the value read is tiny (not zero and below the least normal float)
    and its conversion is inexact. *)
Definition range_error (r : float) (m e2 e10 : Z) : bool :=
  match r with
  | S754_infinity _ => true
  | S754_zero _ => negb (m =? 0)
  | S754_finite _ mr er =>
      below_normal m e2 e10 && negb (exact (Zpos mr) er m e2 e10)
  | S754_nan => false
  end.

Record result := {
  value : float;        (* the returned float *)
  converted : bool;     (* endptr != nptr *)
  erange : bool         (* errno == ERANGE *)
}.

Definition no_conversion : result :=
  {| value := S754_zero false; converted := false; erange := false |}.

Definition finite (neg : bool) (m e2 e10 : Z) : result :=
  let r := nearest neg m e2 e10 in
  {| value := r; converted := true; erange := range_error r m e2 e10 |}.

Definition special (v : float) : result :=
  {| value := v; converted := true; erange := false |}.

(** A decimal floating constant. *)
Definition scan_decimal (neg : bool) (cs : list ascii) : result :=
  match scan_mantissa 10 digit_value cs with
  | Some (m, nf, rest) => finite neg m 0 (scan_exponent "e" rest - nf)
  | None => no_conversion
  end.

(** A hexadecimal floating constant, after its [0x] prefix. *)
Definition scan_hex (cs : list ascii) : option (Z * Z) :=
  match scan_mantissa 16 xdigit_value cs with
  | Some (m, nf, rest) => Some (m, scan_exponent "p" rest - 4 * nf)
  | None => None
  end.

Definition is_hex_prefix (cs : list ascii) : bool :=
  prefix_nocase ["0"; "x"]%char cs.

Definition strtof (nptr : string) : result :=
  let '(neg, cs) := scan_sign (skip_space (list_ascii_of_string nptr)) in
  if prefix_nocase ["i"; "n"; "f"]%char cs then special (S754_infinity neg)
  else if prefix_nocase ["n"; "a"; "n"]%char cs then special S754_nan
  else
    match (if is_hex_prefix cs then scan_hex (skipn 2 cs) else None) with
    | Some (m, e2) => finite neg m e2 0
    | None => scan_decimal neg cs
    end.

End Strtof.

(* ================================================================== *)
(** * Control flow of the C++ code: local state, exceptions, undefined
      behaviour *)
(* ================================================================== *)

Module Cpp.

(** The exceptions [std::stof] throws. *)
Inductive exception := invalid_argument | out_of_range.

(** How a statement ends, with the local state [S] it leaves. *)
Inductive result (S A : Type) : Type :=
| Normal (a : A) (s : S)
| Thrown (e : exception) (s : S)
| Undefined.
Arguments Normal {S A} a s.
Arguments Thrown {S A} e s.
Arguments Undefined {S A}.

Definition M (S A : Type) : Type := S -> result S A.

Definition ret {S A} (a : A) : M S A := fun s => Normal a s.

Definition bind {S A B} (c : M S A) (k : A -> M S B) : M S B :=
  fun s =>
    match c s with
    | Normal a s' => k a s'
    | Thrown e s' => Thrown e s'
    | Undefined => Undefined
    end.

Definition throw {S A} (e : exception) : M S A := fun s => Thrown e s.
Definition undefined {S A} : M S A := fun _ => Undefined.
Definition get {S} : M S S := fun s => Normal s s.
Definition modify {S} (f : S -> S) : M S unit := fun s => Normal tt (f s).

(** [try { body } catch (...) { handler }]: every exception is caught,
    the handler runs in the state the body had reached. *)
Definition try_catch_all {S A} (body handler : M S A) : M S A :=
  fun s =>
    match body s with
    | Thrown _ s' => handler s'
    | r => r
    end.

(** [if (b) { c }] *)
Definition when {S} (b : bool) (c : M S unit) : M S unit :=
  if b then c else ret tt.

(** How a function call ends for its caller. *)
Inductive outcome (A : Type) : Type :=
| Returns (a : A)
| Throws (e : exception)
| UndefinedBehaviour.
Arguments Returns {A} a.
Arguments Throws {A} e.
Arguments UndefinedBehaviour {A}.

(** Run a function body from the initial value of its locals. *)
Definition call {S A} (body : M S A) (init : S) : outcome A :=
  match body init with
  | Normal a _ => Returns a
  | Thrown e _ => Throws e
  | Undefined => UndefinedBehaviour
  end.

(** A call made inside a function body: its exception propagates. *)
Definition invoke {S A} (o : outcome A) : M S A :=
  fun s =>
    match o with
    | Returns a => Normal a s
    | Throws e => Thrown e s
    | UndefinedBehaviour => Undefined
    end.

(** [v[i]] on a [std::vector]: undefined out of range. *)
Definition vector_at {S A} (v : list A) (i : nat) : M S A :=
  match nth_error v i with
  | Some a => ret a
  | None => undefined
  end.

(** [v.size()] *)
Definition size {A} (v : list A) : nat := List.length v.

End Cpp.

Declare Scope cpp_scope.
Delimit Scope cpp_scope with cpp.
Notation "x <- c ;; k" := (Cpp.bind c (fun x => k))
  (at level 61, c at next level, right associativity) : cpp_scope.
Notation "c ;; k" := (Cpp.bind c (fun _ => k))
  (at level 61, right associativity) : cpp_scope.

Import Cpp.

(** [std::stof(str)] *)
Definition stof (str : string) : outcome float :=
  let r := Strtof.strtof str in
  if negb (Strtof.converted r) then Throws invalid_argument
  else if Strtof.erange r then Throws out_of_range
  else Returns (Strtof.value r).

(* ================================================================== *)
(** * Messages *)
(* ================================================================== *)

(** Modelled from the spec: the message types [geometry_msgs/Twist]
    (outbound, fields [linear.x] and [angular.z] used, all other fields
    zero) and [j5_msgs/j5StatusMsg] (inbound, fields [externalControl],
    [contactors], [fault], [voltage]) are declared outside the source
    file; their default constructors zero every field. *)
Module geometry_msgs.
Record Vector3 := { x : double; y : double; z : double }.
Record Twist := { linear : Vector3; angular : Vector3 }.

Definition Vector3_init : Vector3 := {| x := zero; y := zero; z := zero |}.
Definition Twist_init : Twist :=
  {| linear := Vector3_init; angular := Vector3_init |}.

Definition set_x (v : double) (p : Vector3) : Vector3 :=
  {| x := v; y := y p; z := z p |}.
Definition set_z (v : double) (p : Vector3) : Vector3 :=
  {| x := x p; y := y p; z := v |}.
Definition set_linear_x (v : double) (m : Twist) : Twist :=
  {| linear := set_x v (linear m); angular := angular m |}.
Definition set_angular_z (v : double) (m : Twist) : Twist :=
  {| linear := linear m; angular := set_z v (angular m) |}.
End geometry_msgs.

Module j5_msgs.
Record j5StatusMsg := {
  externalControl : bool;
  contactors : bool;
  fault : bool;
  voltage : double
}.
End j5_msgs.

Definition Twist : Type := geometry_msgs.Twist.
Definition j5StatusMsg : Type := j5_msgs.j5StatusMsg.

(** [msg.linear.x] and [msg.angular.z] *)
Definition linear_x (msg : Twist) : double :=
  geometry_msgs.x (geometry_msgs.linear msg).
Definition angular_z (msg : Twist) : double :=
  geometry_msgs.z (geometry_msgs.angular msg).

(* ================================================================== *)
(** * Get Command Message *)
(* ================================================================== *)

Section GetCommandMsg.
Local Open Scope cpp_scope.

(** [msg.linear.x = v;] and [msg.angular.z = v;] on the local [msg]. *)
Definition assign_linear_x (v : double) : M Twist unit :=
  modify (geometry_msgs.set_linear_x v).
Definition assign_angular_z (v : double) : M Twist unit :=
  modify (geometry_msgs.set_angular_z v).

(** The body of [getCommandMsg], statement by statement; the local
    state is the message [msg] being built. *)
Definition getCommandMsg_body (args : list string) : M Twist Twist :=
  assign_linear_x (double_of_float DefaultVelocityCmd) ;;
  assign_angular_z (double_of_float DefaultTurnRateCmd) ;;
  when (1 <? size args)%nat
    (try_catch_all
       (a <- vector_at args 1 ;;
        v <- invoke (stof a) ;;
        assign_linear_x (double_of_float v) ;;
        msg <- get ;;
        assign_linear_x (std_max (linear_x msg) (fneg MaxVelocityCommand)) ;;
        msg <- get ;;
        assign_linear_x (std_min (linear_x msg) MaxVelocityCommand))
       (assign_linear_x (double_of_float DefaultVelocityCmd))) ;;
  when (2 <? size args)%nat
    (try_catch_all
       (a <- vector_at args 2 ;;
        v <- invoke (stof a) ;;
        assign_angular_z (double_of_float v) ;;
        msg <- get ;;
        assign_angular_z (std_max (angular_z msg) (fneg MaxTurnRateCommand)) ;;
        msg <- get ;;
        assign_angular_z (std_min (angular_z msg) MaxTurnRateCommand))
       (assign_angular_z (double_of_float DefaultTurnRateCmd))) ;;
  get.

(** [geometry_msgs::Twist getCommandMsg(const std::vector<std::string> &args)] *)
Definition getCommandMsg (args : list string) : outcome Twist :=
  call (getCommandMsg_body args) geometry_msgs.Twist_init.

End GetCommandMsg.

(* ================================================================== *)
(** * Status Message Callback and the main execution thread *)
(* ================================================================== *)

(** An argument of a [printf]-style format, after default promotion. *)
Inductive fmt_arg := ArgInt (n : Z) | ArgDouble (d : double).

(** One [ROS_INFO(format, arguments...)] record. *)
Inductive log_record := ROS_INFO (format : string) (arguments : list fmt_arg).

(** What the node does to the ROS network: the records it logs and the
    messages it hands to the publisher on [/j5_cmd], oldest first. *)
Record World := {
  rosout : list log_record;
  j5_cmd : list Twist
}.

Definition log (r : log_record) (w : World) : World :=
  {| rosout := rosout w ++ [r]; j5_cmd := j5_cmd w |}.

Definition publish (m : Twist) (w : World) : World :=
  {| rosout := rosout w; j5_cmd := j5_cmd w ++ [m] |}.

(** The record [statusMsgHandler] logs for a message. *)
Definition status_record (msg : j5StatusMsg) : log_record :=
  ROS_INFO "RCV Status: EXT_CONTROL: %i FAULT: %i CONTACTORS: %i VOLTAGE: %.1f"
    [ArgInt (Z.b2z (j5_msgs.externalControl msg));
     ArgInt (Z.b2z (j5_msgs.fault msg));
     ArgInt (Z.b2z (j5_msgs.contactors msg));
     ArgDouble (j5_msgs.voltage msg)].

(** [void statusMsgHandler(const j5_msgs::j5StatusMsg::ConstPtr& msg)] *)
Definition statusMsgHandler (msg : j5StatusMsg) (w : World) : World :=
  log (status_record msg) w.

(** The record the loop logs before publishing. *)
Definition sending_record (cmdMsg : Twist) : log_record :=
  ROS_INFO "Sending Velocty Command: {%f, %f}"
    [ArgDouble (linear_x cmdMsg); ArgDouble (angular_z cmdMsg)].

(** Where the main thread stands, from [spinner.start()] on. *)
Inductive pc :=
| AtWhile          (* while (ros::ok()) *)
| AtLogSend        (* ROS_INFO("Sending Velocty Command: ...") *)
| AtPublish        (* velCmdPub.publish(cmdMsg) *)
| AtSleep          (* loop_rate.sleep() *)
| AtSpinnerStop    (* spinner.stop() *)
| AtShutdown       (* ros::shutdown() *)
| AtReturn         (* return 0 *)
| Exited (status : Z).

Record Node := {
  at_pc : pc;
  cmdMsg : Twist;          (* the local of [main] *)
  spinning : bool;         (* the asynchronous spinner delivers callbacks *)
  world : World
}.

(** What the environment decides: the main thread runs its next
    statement ([ros_ok] is what [ros::ok()] answers if it is asked), or
    the spinner dispatches a status message. *)
Inductive event :=
| MainStep (ros_ok : bool)
| StatusDelivered (msg : j5StatusMsg).

Definition goto (p : pc) (n : Node) : Node :=
  {| at_pc := p; cmdMsg := cmdMsg n; spinning := spinning n; world := world n |}.

Definition with_world (f : World -> World) (n : Node) : Node :=
  {| at_pc := at_pc n; cmdMsg := cmdMsg n; spinning := spinning n;
     world := f (world n) |}.

Definition stop_spinner (n : Node) : Node :=
  {| at_pc := at_pc n; cmdMsg := cmdMsg n; spinning := false; world := world n |}.

Definition main_step (ros_ok : bool) (n : Node) : Node :=
  match at_pc n with
  | AtWhile => if ros_ok then goto AtLogSend n else goto AtSpinnerStop n
  | AtLogSend => goto AtPublish (with_world (log (sending_record (cmdMsg n))) n)
  | AtPublish => goto AtSleep (with_world (publish (cmdMsg n)) n)
  | AtSleep => goto AtWhile n
  | AtSpinnerStop => goto AtShutdown (stop_spinner n)
  | AtShutdown => goto AtReturn n
  | AtReturn => goto (Exited 0) n
  | Exited _ => n
  end.

Definition step (n : Node) (ev : event) : Node :=
  match ev with
  | MainStep ros_ok => main_step ros_ok n
  | StatusDelivered msg =>
      if spinning n then with_world (statusMsgHandler msg) n else n
  end.

Definition run (evs : list event) (n : Node) : Node := fold_left step evs n.

(** [main], from the arguments left by [ros::removeROSArgs] up to the
    entry of the loop: [cmdMsg = getCommandMsg(args); spinner.start();] *)
Definition loop_entry (c : Twist) : Node :=
  {| at_pc := AtWhile; cmdMsg := c; spinning := true;
     world := {| rosout := []; j5_cmd := [] |} |}.

Definition main_start (args : list string) : outcome Node :=
  match getCommandMsg args with
  | Returns c => Returns (loop_entry c)
  | Throws e => Throws e
  | UndefinedBehaviour => UndefinedBehaviour
  end.

(** The states of the spec's loop: Running, ShuttingDown, Terminated. *)
Inductive phase := Running | ShuttingDown | Terminated.

Definition phase_of (n : Node) : phase :=
  match at_pc n with
  | AtWhile | AtLogSend | AtPublish | AtSleep => Running
  | AtSpinnerStop | AtShutdown | AtReturn => ShuttingDown
  | Exited _ => Terminated
  end.

(** One full iteration of the loop body, [ros::ok()] holding. *)
Definition iteration : list event :=
  [MainStep true; MainStep true; MainStep true; MainStep true].

Fixpoint iterations (k : nat) : list event :=
  match k with
  | O => []
  | S k' => iteration ++ iterations k'
  end.

(* ================================================================== *)
(** * Vocabulary of the properties *)
(* ================================================================== *)

(** The two commanded quantities and, for each, the argument index it
    is read from, the field it is stored in, its limit and default. *)
Inductive axis := Linear | Angular.

Definition arg_index (a : axis) : nat :=
  match a with Linear => 1%nat | Angular => 2%nat end.

Definition field (a : axis) (msg : Twist) : double :=
  match a with Linear => linear_x msg | Angular => angular_z msg end.

Definition limit (a : axis) : double :=
  match a with Linear => MaxVelocityCommand | Angular => MaxTurnRateCommand end.

Definition default (a : axis) : double :=
  match a with
  | Linear => double_of_float DefaultVelocityCmd
  | Angular => double_of_float DefaultTurnRateCmd
  end.

(** The parse step fails: nothing was converted (a non-numeric or empty
    string) or the value is out of the range of [float]. *)
Definition parse_failure (s : string) : bool :=
  negb (Strtof.converted (Strtof.strtof s)) || Strtof.erange (Strtof.strtof s).

(** [|linearSpeed| <= MaxVelocityCommand] and
    [|angularRate| <= MaxTurnRateCommand]. *)
Definition within_limits (msg : Twist) : bool :=
  fle (fabs (linear_x msg)) MaxVelocityCommand
  && fle (fabs (angular_z msg)) MaxTurnRateCommand.

(** What one field of the command is, given the argument it is read
    from ([None] when the argument is absent). *)
Definition component (a : axis) (arg : option string) : double :=
  match arg with
  | None => default a
  | Some s =>
      match stof s with
      | Returns v => clamp_code (limit a) (double_of_float v)
      | _ => default a
      end
  end.

(** The message with the given [linear.x] and [angular.z], every other
    field zero. *)
Definition twist_of (lx az : double) : Twist :=
  geometry_msgs.set_angular_z az
    (geometry_msgs.set_linear_x lx geometry_msgs.Twist_init).

(** A node between [spinner.start()] and [spinner.stop()] has its
    spinner on. *)
Definition spinner_consistent (n : Node) : Prop :=
  match at_pc n with
  | AtShutdown | AtReturn | Exited _ => spinning n = false
  | _ => spinning n = true
  end.

(** Everything published so far, and the local [cmdMsg], is [c]. *)
Definition command_fixed (c : Twist) (n : Node) : Prop :=
  cmdMsg n = c /\ Forall (fun m => m = c) (j5_cmd (world n)).

(** The inputs of the spec's scenarios: the arguments of scenario 1 and
    the status record of scenario 5 (its voltage is the double nearest
    to 48.2). *)
Definition scenario_args : list string :=
  ["j5_interface"; "2.5"; "0.3"]%string.

Definition scenario_status : j5StatusMsg :=
  {| j5_msgs.externalControl := true;
     j5_msgs.contactors := true;
     j5_msgs.fault := false;
     j5_msgs.voltage :=
       SFdiv Binary64.prec Binary64.emax
             (Binary64.of_Z 482) (Binary64.of_Z 10) |}.

(** The node of scenario 1 as it enters the loop, and a schedule that
    stops in the middle of the first iteration. *)
Definition scenario_node : Node :=
  loop_entry (twist_of (component Linear (Some "2.5"%string))
                       (component Angular (Some "0.3"%string))).

Definition scenario_schedule : list event :=
  [MainStep true; MainStep true].


(* ================================================================== *)
(** * Vocabulary of the further properties *)
(* ================================================================== *)

(** The argument, after white space and an optional sign, starts with
    [nan] in any letter case: the spelling [strtof] converts to a NaN. *)
Definition spells_nan (s : string) : bool :=
  Strtof.prefix_nocase ["n"; "a"; "n"]%char
    (snd (Strtof.scan_sign (Strtof.skip_space (list_ascii_of_string s)))).

(** The fields of the message that [getCommandMsg] never assigns. *)
Definition unused_fields (msg : Twist) : list double :=
  [geometry_msgs.y (geometry_msgs.linear msg);
   geometry_msgs.z (geometry_msgs.linear msg);
   geometry_msgs.x (geometry_msgs.angular msg);
   geometry_msgs.y (geometry_msgs.angular msg)].

(** The two kinds of record the node logs, told apart by their format. *)
Definition format_of (r : log_record) : string :=
  match r with ROS_INFO f _ => f end.

Definition is_status (r : log_record) : bool :=
  String.eqb (format_of r)
    "RCV Status: EXT_CONTROL: %i FAULT: %i CONTACTORS: %i VOLTAGE: %.1f".

Definition is_sending (r : log_record) : bool :=
  String.eqb (format_of r) "Sending Velocty Command: {%f, %f}".

(** The status messages of a schedule, in the order of their delivery,
    and the schedule without them. *)
Fixpoint deliveries (evs : list event) : list j5StatusMsg :=
  match evs with
  | [] => []
  | StatusDelivered msg :: evs' => msg :: deliveries evs'
  | MainStep _ :: evs' => deliveries evs'
  end.

Definition is_main_step (ev : event) : bool :=
  match ev with MainStep _ => true | StatusDelivered _ => false end.

Definition main_steps (evs : list event) : list event :=
  filter is_main_step evs.

(** [ros::ok()] answers true whenever the schedule asks. *)
Definition always_ok (evs : list event) : bool :=
  forallb (fun ev => match ev with MainStep ok => ok | _ => true end) evs.

(** The number of "Sending" records a node has logged and not yet
    followed by the publication they announce. *)
Definition pending_publish (n : Node) : nat :=
  match at_pc n with AtPublish => 1%nat | _ => 0%nat end.

(** The outcome of [std::stof], with the opposite value. *)
Definition opposite (o : outcome float) : outcome float :=
  match o with Returns v => Returns (SFopp v) | _ => o end.

(** A node that has returned from [main] did so with status 0. *)
Definition exit_status_zero (n : Node) : Prop :=
  match at_pc n with Exited z => z = 0 | _ => True end.

(** Two nodes that differ at most by the status records logged. *)
Definition same_main_thread (n n' : Node) : Prop :=
  at_pc n = at_pc n'
  /\ cmdMsg n = cmdMsg n'
  /\ spinning n = spinning n'
  /\ j5_cmd (world n) = j5_cmd (world n')
  /\ filter is_sending (rosout (world n))
     = filter is_sending (rosout (world n')).

(** Every "Sending" record logged carries the command [c], and there is
    one for each message published or about to be. *)
Definition sending_matches_published (c : Twist) (n : Node) : Prop :=
  cmdMsg n = c
  /\ filter is_sending (rosout (world n))
     = repeat (sending_record c)
              (List.length (j5_cmd (world n)) + pending_publish n).

(** The statements left to the main thread once the loop is over. *)
Definition steps_to_exit (n : Node) : nat :=
  match at_pc n with
  | AtSpinnerStop => 3%nat
  | AtShutdown => 2%nat
  | AtReturn => 1%nat
  | _ => 0%nat
  end.
(* ================================================================== *)
(** * Vocabulary of the parse properties *)
(* ================================================================== *)

Definition is_digit (c : ascii) : bool :=
  match Strtof.digit_value c with Some _ => true | None => false end.

(** What is left of an argument after white space and the optional
    sign, and whether that sign is a minus. *)
Definition unsigned_part (s : string) : list ascii :=
  snd (Strtof.scan_sign (Strtof.skip_space (list_ascii_of_string s))).

Definition minus_signed (s : string) : bool :=
  fst (Strtof.scan_sign (Strtof.skip_space (list_ascii_of_string s))).

(** The argument, after white space and an optional sign, starts with
    [inf] in any letter case. *)
Definition spells_inf (s : string) : bool :=
  Strtof.prefix_nocase ["i"; "n"; "f"]%char (unsigned_part s).

(** A number starts here: a digit, or a radix character and a digit. *)
Definition starts_number (cs : list ascii) : bool :=
  match cs with
  | c :: r =>
      is_digit c
      || (Ascii.eqb "." c
          && match r with d :: _ => is_digit d | [] => false end)
  | [] => false
  end.

(** A non-numeric string: no number starts it, after white space and
    an optional sign.  The empty string is one; so are [abc], [infinity]
    and [nan]. *)
Definition non_numeric (s : string) : bool :=
  negb (starts_number (unsigned_part s)).

Definition is_infinite (v : spec_float) : bool :=
  match v with S754_infinity _ => true | _ => false end.

(** An overflowing string: it is converted to an infinity that it does
    not spell. *)
Definition overflowing (s : string) : bool :=
  is_infinite (Strtof.value (Strtof.strtof s)) && negb (spells_inf s).

(** The strings on which the parse step is expected to fail: the
    non-numeric ones that spell neither [inf] nor [nan], the overflowing
    ones and, more generally, those out of the range of [float]. *)
Definition unparsable (s : string) : bool :=
  (non_numeric s && negb (spells_inf s) && negb (spells_nan s))
  || overflowing s
  || Strtof.erange (Strtof.strtof s).


Definition is_minus (sg : option bool) : bool :=
  match sg with Some true => true | _ => false end.

Definition fraction_digits (fp : option (list ascii)) : list ascii :=
  match fp with Some ds => ds | None => [] end.





(** The integer written by a list of digits. *)
Definition digits_value (ds : list ascii) : Z :=
  fold_left (fun acc c => 10 * acc + (Strtof.code c - 48)) ds 0.

(** The float nearest to the number a numeral writes, and whether that
    number is in the range of [float]. *)
Definition numeral_value (sg : option bool) (ip : list ascii)
           (fp : option (list ascii)) : float :=
  Strtof.nearest (is_minus sg) (digits_value (ip ++ fraction_digits fp)) 0
                 (- Z.of_nat (List.length (fraction_digits fp))).




(* ================================================================== *)
(** * Clamping *)
(* ================================================================== *)

(** The two [std::] calls of the source compute the spec's [clamp]
    whenever the interval is not empty. *)
Lemma clamp_code_is_clamp (l x : double) :
  flt l (fneg l) = false ->
  clamp_code l x = clamp x (fneg l) l.
Proof.
  intros Hl. unfold clamp_code, clamp, std_min, std_max.
  destruct (flt x (fneg l)); [now rewrite Hl|reflexivity].
Qed.

Lemma limit_interval (a : axis) : flt (limit a) (fneg (limit a)) = false.
Proof. destruct a; reflexivity. Qed.

Lemma clamp_code_limit (a : axis) (x : double) :
  clamp_code (limit a) x = clamp x (fneg (limit a)) (limit a).
Proof. apply clamp_code_is_clamp, limit_interval. Qed.

(** A clamped value is the value itself or one of the two bounds. *)
Lemma clamp_cases (v lo hi : double) :
  (flt v lo = true /\ clamp v lo hi = lo)
  \/ (flt v lo = false /\ flt hi v = true /\ clamp v lo hi = hi)
  \/ (flt v lo = false /\ flt hi v = false /\ clamp v lo hi = v).
Proof.
  unfold clamp.
  destruct (flt v lo); [now left|].
  destruct (flt hi v); [right; left|right; right]; auto.
Qed.

(** Both bounds are fixed points of the clamp: this is what makes it
    idempotent. *)
Lemma clamp_idempotent (v lo hi : double) :
  flt lo lo = false -> flt hi lo = false -> flt hi hi = false ->
  clamp (clamp v lo hi) lo hi = clamp v lo hi.
Proof.
  intros Hll Hhl Hhh.
  destruct (clamp_cases v lo hi) as [[_ E]|[[_ [_ E]]|[H1 [H2 E]]]];
    rewrite E; unfold clamp.
  - now rewrite Hll, Hhl.
  - now rewrite Hhl, Hhh.
  - now rewrite H1, H2.
Qed.

(** A NaN goes through the clamp: each comparison with it is false. *)
Lemma clamp_code_nan (l : double) : clamp_code l S754_nan = S754_nan.
Proof. destruct l as [[|]|[|]| |[|] m e]; reflexivity. Qed.

(** Comparing a finite value with a positive finite bound and with its
    opposite decides the comparison of its magnitude with the bound. *)
Lemma finite_between (s : bool) (m ml : positive) (e el : Z) :
  flt (S754_finite s m e) (S754_finite true ml el) = false ->
  flt (S754_finite false ml el) (S754_finite s m e) = false ->
  fle (S754_finite false m e) (S754_finite false ml el) = true.
Proof.
  unfold flt, fle, SFltb, SFleb, SFcompare.
  change (Pos.compare_cont Eq ml m) with (Pos.compare ml m).
  change (Pos.compare_cont Eq m ml) with (Pos.compare m ml).
  rewrite (Z.compare_antisym e el), (Pos.compare_antisym m ml).
  destruct s, (e ?= el), (m ?= ml)%positive;
    simpl; intros; congruence.
Qed.

(** Any value that is not a NaN is brought within the bound. *)
Lemma clamp_code_bounded (ml : positive) (el : Z) (x : double) :
  is_nan x = false ->
  fle (fabs (clamp_code (S754_finite false ml el) x))
      (S754_finite false ml el) = true.
Proof.
  intros Hx. set (l := S754_finite false ml el).
  assert (Hl : fle l l = true).
  { unfold l, fle, SFleb, SFcompare.
    rewrite Z.compare_refl, Pos.compare_cont_refl. reflexivity. }
  assert (Hi : flt l (fneg l) = false) by reflexivity.
  rewrite (clamp_code_is_clamp l x Hi).
  destruct (clamp_cases x (fneg l) l) as [[_ E]|[[_ [_ E]]|[H1 [H2 E]]]];
    rewrite E; try exact Hl.
  destruct x as [s|s| |s m e]; try discriminate Hx.
  - reflexivity.
  - destruct s; discriminate.
  - apply (finite_between s m ml e el H1 H2).
Qed.

(* ================================================================== *)
(** * The parse primitive *)
(* ================================================================== *)

(** [std::stof] returns or throws; it has no undefined behaviour. *)
Lemma stof_defined (s : string) : stof s <> UndefinedBehaviour.
Proof.
  unfold stof.
  destruct (negb _); [discriminate|].
  destruct (Strtof.erange _); discriminate.
Qed.


Lemma stof_returns_iff (s : string) :
  (exists v, stof s = Returns v) <-> parse_failure s = false.
Proof.
  unfold stof, parse_failure.
  destruct (Strtof.converted _), (Strtof.erange _); simpl; split;
    try reflexivity; try discriminate; intros H;
    solve [ destruct H; discriminate | eexists; reflexivity ].
Qed.

(** A string whose first character can start neither white space, a
    sign, a digit, a radix character, [inf] nor [nan] converts nothing,
    whatever follows. *)
Lemma strtof_rejects (c : ascii) (t : string) :
  Strtof.isspace c = false ->
  Strtof.digit_value c = None ->
  negb (existsb (Ascii.eqb (Strtof.tolower c)) ["+"; "-"; "."; "i"; "n"]%char)
    = true ->
  Strtof.converted (Strtof.strtof (String c t)) = false.
Proof.
  intros Hs Hd Hc.
  destruct c as [[] [] [] [] [] [] [] []];
    solve [ discriminate Hs | discriminate Hd | discriminate Hc
          | vm_compute; reflexivity ].
Qed.

Example stof_empty : stof "" = Throws invalid_argument.
Proof. reflexivity. Qed.

Example stof_letters : stof "abc" = Throws invalid_argument.
Proof. reflexivity. Qed.

Example stof_overflow : stof "1e40" = Throws out_of_range.
Proof. vm_compute. reflexivity. Qed.

Example stof_nan : stof "nan" = Returns S754_nan.
Proof. reflexivity. Qed.

Example stof_two_and_a_half :
  stof "2.5" = Returns (S754_finite false 10485760 (-22)).
Proof. vm_compute. reflexivity. Qed.

Example limits_are_binary64 :
  Binary64.valid MaxVelocityCommand = true
  /\ Binary64.valid MaxTurnRateCommand = true.
Proof. split; reflexivity. Qed.

Example parsed_values_are_binary32 :
  Binary32.valid (Strtof.value (Strtof.strtof "0.3")) = true
  /\ Binary32.valid (Strtof.value (Strtof.strtof "1e-40")) = true
  /\ Binary32.valid (Strtof.value (Strtof.strtof "0x1.8p1")) = true.
Proof. repeat split; vm_compute; reflexivity. Qed.

(* ================================================================== *)
(** * Get Command Message: what it computes *)
(* ================================================================== *)

Ltac run_body :=
  cbv [getCommandMsg call getCommandMsg_body bind try_catch_all when
       vector_at invoke ret get modify undefined assign_linear_x
       assign_angular_z size List.length Nat.ltb Nat.leb nth_error].

Ltac case_stof s :=
  let E := fresh "E" in
  destruct (stof s) eqn:E; [ | | exfalso; exact (stof_defined s E) ].

(** The whole function at once: each field is computed from its own
    argument, all other fields stay zero. *)
Lemma getCommandMsg_eq (args : list string) :
  getCommandMsg args =
  Returns (twist_of (component Linear (nth_error args 1))
                    (component Angular (nth_error args 2))).
Proof.
  destruct args as [|a0 [|a1 [|a2 rest]]]; run_body;
    cbv [component nth_error]; try reflexivity.
  - case_stof a1; reflexivity.
  - case_stof a1; case_stof a2; reflexivity.
Qed.

(** Scenarios 1 to 4 of the spec.  In scenario 1 the angular rate is
    the float nearest to 0.3, converted to double. *)
Example scenario_1 :
  getCommandMsg scenario_args
  = Returns (twist_of (S754_finite false 5629499534213120 (-51))
                      (S754_finite false 5404319767592960 (-54))).
Proof. vm_compute. reflexivity. Qed.

Example scenario_2 :
  getCommandMsg ["prog"; "10.0"; "0.3"]%string
  = Returns (twist_of MaxVelocityCommand
                      (S754_finite false 5404319767592960 (-54))).
Proof. vm_compute. reflexivity. Qed.

Example scenario_3 :
  getCommandMsg ["prog"; "abc"]%string = Returns (twist_of zero zero).
Proof. vm_compute. reflexivity. Qed.

Example scenario_4 :
  getCommandMsg ["prog"]%string = Returns (twist_of zero zero).
Proof. vm_compute. reflexivity. Qed.

Lemma field_twist_of (a : axis) (lx az : double) :
  field a (twist_of lx az) = match a with Linear => lx | Angular => az end.
Proof. destruct a; reflexivity. Qed.

Lemma field_getCommandMsg (args : list string) (a : axis) :
  exists msg, getCommandMsg args = Returns msg
              /\ field a msg = component a (nth_error args (arg_index a)).
Proof.
  eexists. split; [apply getCommandMsg_eq|].
  rewrite field_twist_of. destruct a; reflexivity.
Qed.


Lemma component_parsed (a : axis) (s : string) (v : float) :
  stof s = Returns v ->
  component a (Some s) = clamp (double_of_float v) (fneg (limit a)) (limit a).
Proof.
  intros E. unfold component. rewrite E. apply clamp_code_limit.
Qed.


(** A component is within its limit unless it is a NaN. *)
Lemma component_bounded (a : axis) (arg : option string) :
  is_nan (component a arg) = false ->
  fle (fabs (component a arg)) (limit a) = true.
Proof.
  unfold component.
  destruct arg as [s|]; [|destruct a; reflexivity].
  destruct (stof s) as [v| |]; try (destruct a; reflexivity).
  intros Hn.
  assert (Hv : is_nan (double_of_float v) = false).
  { destruct (double_of_float v); try reflexivity.
    rewrite clamp_code_nan in Hn. discriminate. }
  destruct a; apply clamp_code_bounded; exact Hv.
Qed.

(** The limits hold for every command whose two fields are numbers. *)
Lemma getCommandMsg_within_limits (args : list string) (msg : Twist) :
  getCommandMsg args = Returns msg ->
  is_nan (linear_x msg) = false ->
  is_nan (angular_z msg) = false ->
  within_limits msg = true.
Proof.
  rewrite getCommandMsg_eq. intros E. injection E as <-.
  unfold within_limits.
  change (linear_x (twist_of ?l ?z)) with l.
  change (angular_z (twist_of ?l ?z)) with z.
  intros H1 H2.
  apply andb_true_intro; split.
  - exact (component_bounded Linear _ H1).
  - exact (component_bounded Angular _ H2).
Qed.

(* ================================================================== *)
(** * What the parse primitive converts *)
(* ================================================================== *)












(** The spelling [inf] is converted to the infinity of its sign. *)
Lemma stof_inf (s : string) :
  spells_inf s = true -> stof s = Returns (S754_infinity (minus_signed s)).
Proof.
  unfold spells_inf, unsigned_part, minus_signed, stof, Strtof.strtof.
  destruct (Strtof.scan_sign _) as [neg cs]. simpl.
  intros ->. reflexivity.
Qed.

Lemma clamp_code_infinity (a : axis) (neg : bool) :
  clamp_code (limit a) (double_of_float (S754_infinity neg))
  = if neg then fneg (limit a) else limit a.
Proof. destruct a, neg; reflexivity. Qed.

(** An argument that spells [inf] is not a parse failure: its field is
    the limit, with the sign of the argument. *)
Lemma inf_argument_gives_limit (args : list string) (a : axis) (s : string) :
  nth_error args (arg_index a) = Some s ->
  spells_inf s = true ->
  exists msg,
    getCommandMsg args = Returns msg
    /\ field a msg = if minus_signed s then fneg (limit a) else limit a.
Proof.
  intros Hs Hi.
  destruct (field_getCommandMsg args a) as [msg [E F]].
  exists msg. split; [exact E|].
  rewrite F, Hs. unfold component. rewrite (stof_inf s Hi).
  apply clamp_code_infinity.
Qed.









(* ================================================================== *)
(** * Properties of the command builder *)
(* ================================================================== *)

(** C1. Whenever the argument at index 1 (linear speed) or at index 2
    (angular rate) is present and [std::stof] parses it to [v], the
    command is returned and its field is [v], converted to double and
    clamped to [[-limit, limit]]: [[-3.0, 3.0]] for the linear speed,
    [[-1.0, 1.0]] for the angular rate. *)
Theorem C1_parsed_argument_is_clamped
        (args : list string) (a : axis) (s : string) (v : float) :
  nth_error args (arg_index a) = Some s ->
  stof s = Returns v ->
  exists msg,
    getCommandMsg args = Returns msg
    /\ field a msg = clamp (double_of_float v) (fneg (limit a)) (limit a)
    /\ limit Linear = Binary64.of_Z 3
    /\ limit Angular = Binary64.of_Z 1.
Proof.
  intros Hs Hv.
  destruct (field_getCommandMsg args a) as [msg [E F]].
  exists msg. split; [exact E|]. split; [|split; reflexivity].
  rewrite F, Hs. apply component_parsed, Hv.
Qed.

Lemma C1_parsed_argument_is_clamped_witness :
  exists msg,
    getCommandMsg ["j5_interface"; "10.0"; "0.3"]%string = Returns msg
    /\ field Linear msg
       = clamp (double_of_float (S754_finite false 10485760 (-20)))
               (fneg (limit Linear)) (limit Linear)
    /\ limit Linear = Binary64.of_Z 3
    /\ limit Angular = Binary64.of_Z 1.
Proof.
  apply (C1_parsed_argument_is_clamped
           ["j5_interface"; "10.0"; "0.3"]%string Linear "10.0"%string).
  - reflexivity.
  - vm_compute. reflexivity.
Defined.

(** C2, at the failing input.  [std::stof] accepts the string [nan];
    both comparisons of the clamp are false on a NaN, so the NaN is
    returned as the linear speed and [|linearSpeed| <= 3.0] does not
    hold of the command. *)
Theorem C2_nan_argument_escapes_the_limits :
  exists msg,
    getCommandMsg ["j5_interface"; "nan"]%string = Returns msg
    /\ linear_x msg = S754_nan
    /\ fle (fabs (linear_x msg)) MaxVelocityCommand = false
    /\ within_limits msg = false.
Proof.
  eexists. split; [vm_compute; reflexivity|].
  repeat split; reflexivity.
Qed.




Example unparsable_strings :
  unparsable "" = true /\ unparsable "abc" = true
  /\ unparsable "  -x1" = true /\ unparsable "." = true
  /\ unparsable "1e40" = true /\ unparsable "-0x1p200" = true
  /\ unparsable "infinity" = false /\ unparsable "nancy" = false
  /\ unparsable "2.5" = false.
Proof. repeat split; vm_compute; reflexivity. Qed.

(** C4. When the argument at index 2 is absent (at most 2 elements) the
    angular rate stays at its default 0.0; with fewer than 2 elements
    the linear speed is 0.0 as well, and with exactly 2 the linear
    speed is the one computed from the argument at index 1. *)
Theorem C4_absent_arguments_keep_defaults (args : list string) :
  (List.length args <= 2)%nat ->
  exists msg,
    getCommandMsg args = Returns msg
    /\ angular_z msg = zero
    /\ ((List.length args < 2)%nat -> linear_x msg = zero)
    /\ (forall s, nth_error args 1 = Some s ->
                  linear_x msg = component Linear (Some s)).
Proof.
  intros Hlen. eexists. split; [apply getCommandMsg_eq|].
  destruct args as [|a0 [|a1 [|a2 rest]]]; simpl in Hlen; try lia;
    (split; [reflexivity|]); split; simpl; intros; try lia;
    try discriminate; try reflexivity.
  match goal with H : Some _ = Some _ |- _ => injection H as <- end.
  reflexivity.
Qed.

Lemma C4_absent_arguments_keep_defaults_witness :
  exists msg,
    getCommandMsg ["j5_interface"; "2.5"]%string = Returns msg
    /\ angular_z msg = zero
    /\ ((List.length ["j5_interface"; "2.5"]%string < 2)%nat ->
        linear_x msg = zero)
    /\ (forall s, nth_error ["j5_interface"; "2.5"]%string 1 = Some s ->
                  linear_x msg = component Linear (Some s)).
Proof.
  apply (C4_absent_arguments_keep_defaults ["j5_interface"; "2.5"]%string).
  simpl. lia.
Defined.

(** C5. [getCommandMsg] is a function of its argument list that returns
    a command for every input: no exception leaves it and no index is
    read out of range. *)
Theorem C5_getCommandMsg_total (args : list string) :
  exists msg,
    getCommandMsg args = Returns msg
    /\ (forall e, getCommandMsg args <> Throws e)
    /\ getCommandMsg args <> UndefinedBehaviour.
Proof.
  eexists. split; [apply getCommandMsg_eq|].
  rewrite getCommandMsg_eq. split; [intros e|]; discriminate.
Qed.

(** C6. Two argument lists that agree at indices 1 and 2 (both present
    and equal, or both absent) give the same command: index 0 and the
    entries after index 2 are not read. *)
Theorem C6_only_arguments_1_and_2_matter (args args' : list string) :
  nth_error args 1 = nth_error args' 1 ->
  nth_error args 2 = nth_error args' 2 ->
  getCommandMsg args = getCommandMsg args'.
Proof.
  intros H1 H2. rewrite !getCommandMsg_eq, H1, H2. reflexivity.
Qed.

Lemma C6_only_arguments_1_and_2_matter_witness :
  getCommandMsg ["j5_interface"; "2.5"; "0.3"; "extra"]%string
  = getCommandMsg ["other"; "2.5"; "0.3"]%string.
Proof.
  apply (C6_only_arguments_1_and_2_matter
           ["j5_interface"; "2.5"; "0.3"; "extra"]%string
           ["other"; "2.5"; "0.3"]%string); reflexivity.
Defined.

(** C9. Clamping is idempotent for every value (NaN and the infinities
    included), both as the source writes it (max with the lower bound,
    then min with the upper bound) and as the spec's [clamp], for the
    linear-speed and the angular-rate bounds. *)
Theorem C9_clamp_idempotent (a : axis) (v : double) :
  clamp_code (limit a) (clamp_code (limit a) v) = clamp_code (limit a) v
  /\ clamp (clamp v (fneg (limit a)) (limit a)) (fneg (limit a)) (limit a)
     = clamp v (fneg (limit a)) (limit a).
Proof.
  assert (H : clamp (clamp v (fneg (limit a)) (limit a))
                    (fneg (limit a)) (limit a)
              = clamp v (fneg (limit a)) (limit a)).
  { apply clamp_idempotent; destruct a; reflexivity. }
  split; [|exact H].
  rewrite !clamp_code_limit. exact H.
Qed.



(** The values behind the property: [3.0abc] gives 3.0, [-2.5e] gives
    -2.5 and [0.3xyz] the float nearest to 0.3; none is the default. *)
Example numeric_prefixes :
  getCommandMsg ["j5_interface"; "3.0abc"]%string
  = Returns (twist_of (Binary64.of_Z 3) zero)
  /\ getCommandMsg ["j5_interface"; "-2.5e"; "0.3xyz"]%string
     = Returns (twist_of (S754_finite true 5629499534213120 (-51))
                         (S754_finite false 5404319767592960 (-54)))
  /\ numeral_value (Some true) ["2"%char] (Some ["5"%char])
     = S754_finite true 10485760 (-22).
Proof. repeat split; vm_compute; reflexivity. Qed.

(* ================================================================== *)
(** * Properties of the publish loop and of the status callback *)
(* ================================================================== *)

(** A property kept by every step holds along every schedule. *)
Lemma run_preserves (P : Node -> Prop) :
  (forall n ev, P n -> P (step n ev)) ->
  forall evs n, P n -> P (run evs n).
Proof.
  intros Hstep. unfold run.
  induction evs as [|ev evs IH]; intros n Hn; simpl; [exact Hn|].
  apply IH, Hstep, Hn.
Qed.

Lemma run_app (evs evs' : list event) (n : Node) :
  run (evs ++ evs') n = run evs' (run evs n).
Proof. unfold run. apply fold_left_app. Qed.

Lemma step_spinner_consistent (n : Node) (ev : event) :
  spinner_consistent n -> spinner_consistent (step n ev).
Proof.
  destruct n as [p c sp w]. unfold spinner_consistent.
  destruct ev as [ok|msg]; simpl.
  - destruct p; simpl; auto. destruct ok; simpl; auto.
  - destruct sp; simpl; auto.
Qed.

Lemma step_command_fixed (c : Twist) (n : Node) (ev : event) :
  command_fixed c n -> command_fixed c (step n ev).
Proof.
  destruct n as [p c' sp [lg pub]]. unfold command_fixed. simpl.
  intros [-> Hpub].
  destruct ev as [ok|msg]; simpl.
  - destruct p; simpl; auto.
    + destruct ok; simpl; auto.
    + split; [reflexivity|].
      apply Forall_app. split; [exact Hpub|]. constructor; auto.
  - destruct sp; simpl; auto.
Qed.

Lemma main_start_eq (args : list string) :
  exists c,
    getCommandMsg args = Returns c
    /\ main_start args = Returns (loop_entry c).
Proof.
  unfold main_start. rewrite getCommandMsg_eq. eexists. split; reflexivity.
Qed.

Lemma main_start_invariants (args : list string) (n0 : Node) :
  main_start args = Returns n0 ->
  spinner_consistent n0 /\ command_fixed (cmdMsg n0) n0.
Proof.
  destruct (main_start_eq args) as [c [_ E]]. rewrite E.
  intros H. injection H as <-.
  split; [reflexivity|]. split; [reflexivity|constructor].
Qed.

(** In the Running phase the spinner is on. *)
Lemma running_spinning (n : Node) :
  spinner_consistent n -> phase_of n = Running -> spinning n = true.
Proof.
  unfold spinner_consistent, phase_of.
  destruct (at_pc n); intros H; try discriminate; intros _; exact H.
Qed.

(** One iteration from the head of the loop logs the command, publishes
    it and comes back to the head of the loop. *)
Lemma run_iteration (n : Node) :
  at_pc n = AtWhile ->
  run iteration n
  = {| at_pc := AtWhile; cmdMsg := cmdMsg n; spinning := spinning n;
       world := publish (cmdMsg n) (log (sending_record (cmdMsg n)) (world n)) |}.
Proof.
  destruct n as [p c sp w]. simpl. intros ->. reflexivity.
Qed.

Lemma run_iterations (k : nat) (n : Node) :
  at_pc n = AtWhile ->
  at_pc (run (iterations k) n) = AtWhile
  /\ cmdMsg (run (iterations k) n) = cmdMsg n
  /\ j5_cmd (world (run (iterations k) n))
     = j5_cmd (world n) ++ repeat (cmdMsg n) k.
Proof.
  revert n. induction k as [|k IH]; intros n Hpc.
  - simpl. rewrite app_nil_r. auto.
  - change (iterations (S k)) with (iteration ++ iterations k).
    rewrite run_app, (run_iteration n Hpc).
    match goal with |- context [run (iterations k) ?m] =>
      destruct (IH m eq_refl) as [H1 [H2 H3]]
    end.
    rewrite H1, H2, H3. simpl.
    rewrite <- app_assoc. auto.
Qed.

(** C7. A status message delivered while the loop is Running makes the
    handler log exactly one record, which is a function of the message
    alone; the command held by [main], the messages published and the
    position of the main thread are left as they were.  The handler's
    whole effect on any world is that one record. *)
Theorem C7_status_logged_once_command_untouched
        (args : list string) (evs : list event) (n0 : Node)
        (msg : j5StatusMsg) :
  main_start args = Returns n0 ->
  phase_of (run evs n0) = Running ->
  rosout (world (step (run evs n0) (StatusDelivered msg)))
  = rosout (world (run evs n0)) ++ [status_record msg]
  /\ j5_cmd (world (step (run evs n0) (StatusDelivered msg)))
     = j5_cmd (world (run evs n0))
  /\ cmdMsg (step (run evs n0) (StatusDelivered msg)) = cmdMsg (run evs n0)
  /\ at_pc (step (run evs n0) (StatusDelivered msg)) = at_pc (run evs n0)
  /\ (forall w, statusMsgHandler msg w
                = {| rosout := rosout w ++ [status_record msg];
                     j5_cmd := j5_cmd w |}).
Proof.
  intros Hstart Hrun.
  assert (Hsp : spinning (run evs n0) = true).
  { apply running_spinning; [|exact Hrun].
    apply (run_preserves spinner_consistent step_spinner_consistent).
    apply (main_start_invariants args n0 Hstart). }
  simpl. rewrite Hsp. simpl. repeat split; reflexivity.
Qed.

Lemma C7_status_logged_once_command_untouched_witness :
  rosout (world (step (run scenario_schedule scenario_node)
                      (StatusDelivered scenario_status)))
  = rosout (world (run scenario_schedule scenario_node))
    ++ [status_record scenario_status]
  /\ j5_cmd (world (step (run scenario_schedule scenario_node)
                         (StatusDelivered scenario_status)))
     = j5_cmd (world (run scenario_schedule scenario_node))
  /\ cmdMsg (step (run scenario_schedule scenario_node)
                  (StatusDelivered scenario_status))
     = cmdMsg (run scenario_schedule scenario_node)
  /\ at_pc (step (run scenario_schedule scenario_node)
                 (StatusDelivered scenario_status))
     = at_pc (run scenario_schedule scenario_node)
  /\ (forall w, statusMsgHandler scenario_status w
                = {| rosout := rosout w ++ [status_record scenario_status];
                     j5_cmd := j5_cmd w |}).
Proof.
  apply (C7_status_logged_once_command_untouched
           scenario_args scenario_schedule scenario_node scenario_status).
  - unfold main_start. rewrite getCommandMsg_eq. reflexivity.
  - reflexivity.
Defined.

(** C8. The command is computed once, by [getCommandMsg] before the
    loop is entered; along every schedule of loop steps and status
    deliveries the local [cmdMsg] keeps that value and every message
    published is that value, and [k] iterations of the loop publish it
    [k] times.  No step of the loop takes the arguments. *)
Theorem C8_command_fixed_at_startup (args : list string) :
  exists c n0,
    getCommandMsg args = Returns c
    /\ main_start args = Returns n0
    /\ (forall evs,
          cmdMsg (run evs n0) = c
          /\ Forall (fun m => m = c) (j5_cmd (world (run evs n0))))
    /\ (forall k, j5_cmd (world (run (iterations k) n0)) = repeat c k).
Proof.
  destruct (main_start_eq args) as [c [Hc Hn]].
  eexists c, _. split; [exact Hc|]. split; [exact Hn|]. split.
  - intros evs.
    apply (run_preserves (command_fixed c) (step_command_fixed c)).
    split; [reflexivity|constructor].
  - intros k.
    match goal with |- context [run _ ?m] =>
      destruct (run_iterations k m eq_refl) as [_ [_ H]]
    end.
    rewrite H. reflexivity.
Qed.

(* ================================================================== *)
(** * Order on the IEEE values *)
(* ================================================================== *)

Lemma SFcompare_antisym (x y : spec_float) :
  SFcompare y x = option_map CompOpp (SFcompare x y).
Proof.
  destruct x as [sx|sx| |sx mx ex], y as [sy|sy| |sy my ey];
    try (destruct sx; try destruct sy; reflexivity);
    try (destruct sy; reflexivity); try reflexivity.
  unfold SFcompare.
  change (Pos.compare_cont Eq my mx) with (Pos.compare my mx).
  change (Pos.compare_cont Eq mx my) with (Pos.compare mx my).
  rewrite (Z.compare_antisym ex ey), (Pos.compare_antisym mx my).
  destruct sx, sy, (ex ?= ey), (mx ?= my)%positive; reflexivity.
Qed.

Lemma SFcompare_opp (x y : spec_float) :
  SFcompare (SFopp x) (SFopp y) = SFcompare y x.
Proof.
  rewrite (SFcompare_antisym x y).
  destruct x as [sx|sx| |sx mx ex], y as [sy|sy| |sy my ey];
    try (destruct sx; try destruct sy; reflexivity);
    try (destruct sy; reflexivity); try reflexivity.
  unfold SFopp, SFcompare.
  destruct sx, sy, (ex ?= ey), (Pos.compare_cont Eq mx my); reflexivity.
Qed.

Lemma fle_not_flt (x y : double) : fle x y = true -> flt y x = false.
Proof.
  unfold fle, flt, SFleb, SFltb. rewrite (SFcompare_antisym x y).
  destruct (SFcompare x y) as [[| |]|]; simpl; congruence.
Qed.

Lemma flt_opp (x y : double) : flt (fneg x) (fneg y) = flt y x.
Proof. unfold flt, fneg, SFltb. now rewrite SFcompare_opp. Qed.

Lemma fneg_involutive (x : double) : fneg (fneg x) = x.
Proof. destruct x as [[|]|[|]| |[|] m e]; reflexivity. Qed.

(** On finite values with the same sign the order is the
    lexicographic order on exponent and mantissa. *)
Lemma SFcompare_trans (x y z : spec_float) (c : comparison) :
  SFcompare x y = Some c -> SFcompare y z = Some c -> SFcompare x z = Some c.
Proof.
  destruct x as [sx|sx| |sx mx ex], y as [sy|sy| |sy my ey],
           z as [sz|sz| |sz mz ez]; simpl;
    try discriminate;
    try (destruct sx; try destruct sy; try destruct sz; congruence);
    try (destruct sy; try destruct sz; congruence);
    try (destruct sz; congruence).
  change (Pos.compare_cont Eq mx my) with (Pos.compare mx my).
  change (Pos.compare_cont Eq my mz) with (Pos.compare my mz).
  change (Pos.compare_cont Eq mx mz) with (Pos.compare mx mz).
  destruct sx, sy, sz; try congruence;
    destruct (Z.compare_spec ex ey), (Z.compare_spec ey ez),
             (Z.compare_spec ex ez); try lia; subst;
    destruct (Pos.compare_spec mx my), (Pos.compare_spec my mz),
             (Pos.compare_spec mx mz); try lia; subst; simpl; congruence.
Qed.

Lemma fle_trans (x y z : double) :
  fle x y = true -> fle y z = true -> fle x z = true.
Proof.
  unfold fle, SFleb.
  destruct x as [sx|sx| |sx mx ex], y as [sy|sy| |sy my ey],
           z as [sz|sz| |sz mz ez]; simpl;
    try discriminate;
    try (destruct sx; try destruct sy; try destruct sz; congruence);
    try (destruct sy; try destruct sz; congruence);
    try (destruct sz; congruence).
  change (Pos.compare_cont Eq mx my) with (Pos.compare mx my).
  change (Pos.compare_cont Eq my mz) with (Pos.compare my mz).
  change (Pos.compare_cont Eq mx mz) with (Pos.compare mx mz).
  destruct sx, sy, sz; try congruence;
    destruct (Z.compare_spec ex ey), (Z.compare_spec ey ez),
             (Z.compare_spec ex ez); try lia; subst; try congruence;
    destruct (Pos.compare_spec mx my), (Pos.compare_spec my mz),
             (Pos.compare_spec mx mz); try lia; subst; simpl; congruence.
Qed.

Lemma flt_fle (x y : double) : flt x y = true -> fle x y = true.
Proof.
  unfold flt, fle, SFltb, SFleb.
  destruct (SFcompare x y) as [[| |]|]; congruence.
Qed.

(** Two values that are not NaN are comparable. *)
Lemma SFcompare_defined (x y : spec_float) :
  is_nan x = false -> is_nan y = false -> SFcompare x y <> None.
Proof.
  destruct x as [sx|sx| |sx mx ex], y as [sy|sy| |sy my ey];
    simpl; try discriminate; intros _ _;
    try (destruct sx; discriminate); try (destruct sy; discriminate).
Qed.

Lemma not_flt_fle (x y : double) :
  is_nan x = false -> is_nan y = false -> flt y x = false -> fle x y = true.
Proof.
  intros Hx Hy. pose proof (SFcompare_defined x y Hx Hy) as D.
  unfold flt, fle, SFltb, SFleb. rewrite (SFcompare_antisym x y).
  destruct (SFcompare x y) as [[| |]|]; simpl; congruence.
Qed.

Lemma fle_not_nan (x y : double) :
  fle x y = true -> is_nan x = false /\ is_nan y = false.
Proof.
  unfold fle, SFleb.
  destruct x as [sx|sx| |sx mx ex], y as [sy|sy| |sy my ey];
    simpl; try discriminate; auto.
Qed.

Lemma fle_refl (x : double) : is_nan x = false -> fle x x = true.
Proof.
  intros Hx. apply not_flt_fle; try exact Hx.
  unfold flt, SFltb.
  pose proof (SFcompare_antisym x x) as A.
  destruct (SFcompare x x) as [[| |]|]; simpl in A; congruence.
Qed.

(* ================================================================== *)
(** * Rounding never makes a NaN *)
(* ================================================================== *)

Section RoundingNotNan.
Variables prec emax : Z.

Lemma shr_m_of_loc (m : Z) (l : location) :
  shr_m (shr_record_of_loc m l) = m.
Proof. destruct l as [|[| |]]; reflexivity. Qed.

Lemma shr_1_nonneg (mrs : shr_record) :
  0 <= shr_m mrs -> 0 <= shr_m (shr_1 mrs).
Proof.
  destruct mrs as [m r s]. simpl.
  destruct m as [|[p|p|]|p]; simpl; lia.
Qed.

Lemma iter_pos_preserves {A : Type} (P : A -> Prop) (f : A -> A) :
  (forall x, P x -> P (f x)) ->
  forall (n : positive) (x : A), P x -> P (iter_pos f n x).
Proof.
  intros Hf. induction n as [n IH|n IH|]; intros x Hx; simpl; auto.
Qed.

Lemma shr_nonneg (mrs : shr_record) (e n : Z) :
  0 <= shr_m mrs -> 0 <= shr_m (fst (shr mrs e n)).
Proof.
  intros H. unfold shr. destruct n as [|p|p]; simpl; auto.
  apply (iter_pos_preserves (fun r => 0 <= shr_m r)); auto.
  apply shr_1_nonneg.
Qed.

Lemma shr_fexp_nonneg (m e : Z) (l : location) :
  0 <= m -> 0 <= shr_m (fst (shr_fexp prec emax m e l)).
Proof.
  intros H. unfold shr_fexp. apply shr_nonneg.
  now rewrite shr_m_of_loc.
Qed.

Lemma round_nearest_even_nonneg (m : Z) (l : location) :
  0 <= m -> 0 <= round_nearest_even m l.
Proof.
  intros H. unfold round_nearest_even.
  destruct l as [|[| |]]; try destruct (Z.even m); lia.
Qed.

Lemma binary_round_aux_not_nan (sx : bool) (mx ex : Z) (lx : location) :
  0 <= mx -> is_nan (binary_round_aux prec emax sx mx ex lx) = false.
Proof.
  intros H. unfold binary_round_aux.
  pose proof (shr_fexp_nonneg mx ex lx H) as H1.
  destruct (shr_fexp prec emax mx ex lx) as [mrs' e']. simpl in H1.
  pose proof (shr_fexp_nonneg
                (round_nearest_even (shr_m mrs') (loc_of_shr_record mrs'))
                e' loc_Exact
                (round_nearest_even_nonneg _ _ H1)) as H2.
  destruct (shr_fexp prec emax _ e' loc_Exact) as [mrs'' e'']. simpl in H2.
  destruct (shr_m mrs'') as [|m|m]; try reflexivity; try lia.
  destruct (e'' <=? emax - prec); reflexivity.
Qed.

Lemma binary_round_not_nan (sx : bool) (mx : positive) (ex : Z) :
  is_nan (binary_round prec emax sx mx ex) = false.
Proof.
  unfold binary_round.
  destruct (shl_align mx ex _) as [mz ez].
  apply binary_round_aux_not_nan. lia.
Qed.

Lemma binary_normalize_not_nan (m e : Z) (szero : bool) :
  is_nan (binary_normalize prec emax m e szero) = false.
Proof.
  destruct m; simpl; try reflexivity; apply binary_round_not_nan.
Qed.

Lemma SFdiv_finite_not_nan (sx sy : bool) (mx my : positive) (ex ey : Z) :
  is_nan (SFdiv prec emax (S754_finite sx mx ex) (S754_finite sy my ey))
  = false.
Proof.
  unfold SFdiv, SFdiv_core_binary.
  set (m' := match _ with Z0 => _ | Zpos _ => _ | Zneg _ => _ end).
  assert (Hm : 0 <= m').
  { unfold m'. destruct (_ - _ - _) as [|p|p]; try lia.
    apply Z.shiftl_nonneg. lia. }
  pose proof (Z_div_mod m' (Zpos my) ltac:(lia)) as D.
  destruct (Z.div_eucl m' (Zpos my)) as [q r].
  apply binary_round_aux_not_nan. nia.
Qed.
End RoundingNotNan.

(* ================================================================== *)
(** * When the parse primitive returns a NaN *)
(* ================================================================== *)

Lemma double_of_float_nan (v : float) :
  is_nan (double_of_float v) = is_nan v.
Proof.
  destruct v as [s|s| |s m e]; try reflexivity.
  apply binary_round_not_nan.
Qed.

Lemma nearest_not_nan (neg : bool) (m e2 e10 : Z) :
  is_nan (Strtof.nearest neg m e2 e10) = false.
Proof.
  unfold Strtof.nearest. destruct m as [|p|p]; try reflexivity.
  destruct (0 <=? e10).
  - apply binary_normalize_not_nan.
  - apply SFdiv_finite_not_nan.
Qed.

Lemma prefix_inf_not_nan (cs : list ascii) :
  Strtof.prefix_nocase ["i"; "n"; "f"]%char cs = true ->
  Strtof.prefix_nocase ["n"; "a"; "n"]%char cs = false.
Proof.
  destruct cs as [|c cs]; [discriminate|].
  change (Strtof.prefix_nocase ["i"; "n"; "f"]%char (c :: cs))
    with (Ascii.eqb "i" (Strtof.tolower c)
          && Strtof.prefix_nocase ["n"; "f"]%char cs).
  change (Strtof.prefix_nocase ["n"; "a"; "n"]%char (c :: cs))
    with (Ascii.eqb "n" (Strtof.tolower c)
          && Strtof.prefix_nocase ["a"; "n"]%char cs).
  destruct (Ascii.eqb_spec "i"%char (Strtof.tolower c)) as [<-|];
    [reflexivity|discriminate].
Qed.

(** [strtof] returns a NaN exactly on the spelling [nan], and then
    without any error. *)
Lemma strtof_nan (s : string) :
  is_nan (Strtof.value (Strtof.strtof s)) = spells_nan s
  /\ (spells_nan s = true ->
      Strtof.strtof s = Strtof.special S754_nan).
Proof.
  unfold Strtof.strtof, spells_nan.
  destruct (Strtof.scan_sign _) as [neg cs]. simpl snd.
  destruct (Strtof.prefix_nocase ["i"; "n"; "f"]%char cs) eqn:Hinf.
  - rewrite (prefix_inf_not_nan cs Hinf). split; [reflexivity|discriminate].
  - destruct (Strtof.prefix_nocase ["n"; "a"; "n"]%char cs);
      [split; reflexivity|].
    split; [|discriminate].
    destruct (if Strtof.is_hex_prefix cs then _ else None) as [[m e2]|].
    + apply nearest_not_nan.
    + unfold Strtof.scan_decimal.
      destruct (Strtof.scan_mantissa _ _ _) as [[[m nf] rest]|];
        [apply nearest_not_nan|reflexivity].
Qed.

Lemma stof_nan_iff (s : string) :
  stof s = Returns S754_nan <-> spells_nan s = true.
Proof.
  destruct (strtof_nan s) as [Hv Hs]. split.
  - unfold stof.
    destruct (negb _); [discriminate|].
    destruct (Strtof.erange _); [discriminate|].
    intros E. injection E as E. rewrite E in Hv. symmetry. exact Hv.
  - intros H. unfold stof. rewrite (Hs H). reflexivity.
Qed.

Lemma clamp_code_nan_iff (a : axis) (x : double) :
  is_nan (clamp_code (limit a) x) = is_nan x.
Proof.
  rewrite clamp_code_limit.
  destruct (clamp_cases x (fneg (limit a)) (limit a))
    as [[H E]|[[_ [H E]]|[_ [_ E]]]]; rewrite E; try reflexivity.
  - destruct x as [sx|sx| |sx mx ex]; try (destruct a; reflexivity).
    destruct a; discriminate H.
  - destruct x as [sx|sx| |sx mx ex]; try (destruct a; reflexivity).
    destruct a; discriminate H.
Qed.

Lemma component_nan (a : axis) (arg : option string) :
  is_nan (component a arg)
  = match arg with Some s => spells_nan s | None => false end.
Proof.
  destruct arg as [s|]; [|destruct a; reflexivity].
  unfold component.
  destruct (spells_nan s) eqn:Hs.
  - apply stof_nan_iff in Hs. rewrite Hs.
    change (double_of_float S754_nan) with S754_nan.
    now rewrite clamp_code_nan.
  - destruct (stof s) as [v| |] eqn:E; try (destruct a; reflexivity).
    rewrite clamp_code_nan_iff, double_of_float_nan.
    destruct v; try reflexivity.
    apply stof_nan_iff in E. congruence.
Qed.

(* ================================================================== *)
(** * Get Command Message: limits, saturation, symmetry *)
(* ================================================================== *)

(** X1. A field of the returned command is a NaN exactly when its
    argument is present and spells [nan] (after white space and an
    optional sign, in any letter case). *)
Theorem X1_field_is_nan_iff_argument_spells_nan
        (args : list string) (a : axis) :
  exists msg,
    getCommandMsg args = Returns msg
    /\ is_nan (field a msg)
       = match nth_error args (arg_index a) with
         | Some s => spells_nan s
         | None => false
         end.
Proof.
  destruct (field_getCommandMsg args a) as [msg [E F]].
  exists msg. split; [exact E|]. rewrite F. apply component_nan.
Qed.

(** X2. If neither the argument at index 1 nor the one at index 2
    spells [nan], the returned command is within its limits:
    [|linear.x| <= 3.0] and [|angular.z| <= 1.0]. *)
Theorem X2_within_limits_unless_nan_is_spelled (args : list string) :
  (forall a s, nth_error args (arg_index a) = Some s -> spells_nan s = false) ->
  exists msg, getCommandMsg args = Returns msg /\ within_limits msg = true.
Proof.
  intros H. eexists. split; [apply getCommandMsg_eq|].
  assert (N : forall a,
             is_nan (component a (nth_error args (arg_index a))) = false).
  { intros a. rewrite component_nan.
    destruct (nth_error args (arg_index a)) as [s|] eqn:E;
      [exact (H a s E)|reflexivity]. }
  apply andb_true_intro; split.
  - exact (component_bounded Linear _ (N Linear)).
  - exact (component_bounded Angular _ (N Angular)).
Qed.

Lemma X2_within_limits_unless_nan_is_spelled_witness :
  exists msg,
    getCommandMsg ["j5_interface"; "1e9"; "-inf"]%string = Returns msg
    /\ within_limits msg = true.
Proof.
  apply (X2_within_limits_unless_nan_is_spelled
           ["j5_interface"; "1e9"; "-inf"]%string).
  intros a s H. destruct a; simpl in H; injection H as <-; reflexivity.
Defined.

(** X3. A parsed value that lies within the limits is returned as it
    is: the clamp changes nothing between [-limit] and [limit]. *)
Theorem X3_value_within_limits_is_kept
        (args : list string) (a : axis) (s : string) (v : float) :
  nth_error args (arg_index a) = Some s ->
  stof s = Returns v ->
  fle (fneg (limit a)) (double_of_float v) = true ->
  fle (double_of_float v) (limit a) = true ->
  exists msg,
    getCommandMsg args = Returns msg /\ field a msg = double_of_float v.
Proof.
  intros Hs Hv Hlo Hhi.
  destruct (field_getCommandMsg args a) as [msg [E F]].
  exists msg. split; [exact E|].
  rewrite F, Hs, (component_parsed a s v Hv). unfold clamp.
  now rewrite (fle_not_flt _ _ Hlo), (fle_not_flt _ _ Hhi).
Qed.

Lemma X3_value_within_limits_is_kept_witness :
  exists msg,
    getCommandMsg scenario_args = Returns msg
    /\ field Angular msg
       = double_of_float (S754_finite false 10066330 (-25)).
Proof.
  apply (X3_value_within_limits_is_kept
           scenario_args Angular "0.3"%string).
  - reflexivity.
  - vm_compute. reflexivity.
  - reflexivity.
  - reflexivity.
Defined.

(** X4. A parsed value above the limit gives exactly the limit, one
    below the opposite of the limit gives exactly its opposite; the
    infinities are such values. *)
Theorem X4_value_beyond_limits_saturates
        (args : list string) (a : axis) (s : string) (v : float) :
  nth_error args (arg_index a) = Some s ->
  stof s = Returns v ->
  exists msg,
    getCommandMsg args = Returns msg
    /\ (flt (limit a) (double_of_float v) = true -> field a msg = limit a)
    /\ (flt (double_of_float v) (fneg (limit a)) = true ->
        field a msg = fneg (limit a)).
Proof.
  intros Hs Hv.
  destruct (field_getCommandMsg args a) as [msg [E F]].
  exists msg. split; [exact E|].
  rewrite F, Hs, (component_parsed a s v Hv). unfold clamp.
  split; intros H.
  - rewrite H.
    assert (L : flt (double_of_float v) (fneg (limit a)) = false).
    { destruct (flt (double_of_float v) (fneg (limit a))) eqn:C; auto.
      assert (B : fle (double_of_float v) (limit a) = true).
      { apply (fle_trans _ (fneg (limit a))); [now apply flt_fle|].
        destruct a; reflexivity. }
      apply fle_not_flt in B. congruence. }
    now rewrite L.
  - now rewrite H.
Qed.

Lemma X4_value_beyond_limits_saturates_witness :
  exists msg,
    getCommandMsg ["j5_interface"; "-inf"]%string = Returns msg
    /\ (flt (limit Linear) (double_of_float (S754_infinity true)) = true ->
        field Linear msg = limit Linear)
    /\ (flt (double_of_float (S754_infinity true)) (fneg (limit Linear)) = true ->
        field Linear msg = fneg (limit Linear)).
Proof.
  apply (X4_value_beyond_limits_saturates
           ["j5_interface"; "-inf"]%string Linear "-inf"%string);
    reflexivity.
Defined.

(** The sign given to the rounding only decides the sign of its result. *)
Lemma binary_round_aux_opp (prec emax : Z) (sx : bool) (mx ex : Z)
      (lx : location) :
  binary_round_aux prec emax (negb sx) mx ex lx
  = SFopp (binary_round_aux prec emax sx mx ex lx).
Proof.
  unfold binary_round_aux.
  destruct (shr_fexp prec emax mx ex lx) as [mrs' e'].
  destruct (shr_fexp prec emax _ e' loc_Exact) as [mrs'' e''].
  destruct (shr_m mrs'') as [|m|m]; try reflexivity.
  destruct (e'' <=? emax - prec); reflexivity.
Qed.

Lemma binary_round_opp (prec emax : Z) (sx : bool) (mx : positive) (ex : Z) :
  binary_round prec emax (negb sx) mx ex
  = SFopp (binary_round prec emax sx mx ex).
Proof.
  unfold binary_round. destruct (shl_align mx ex _) as [mz ez].
  apply binary_round_aux_opp.
Qed.

Lemma double_of_float_opp (v : float) :
  double_of_float (SFopp v) = fneg (double_of_float v).
Proof.
  destruct v as [s|s| |s m e]; try reflexivity.
  apply binary_round_opp.
Qed.

Lemma nearest_opp (m e2 e10 : Z) :
  Strtof.nearest true m e2 e10 = SFopp (Strtof.nearest false m e2 e10).
Proof.
  unfold Strtof.nearest. destruct m as [|p|p]; try reflexivity.
  destruct (0 <=? e10) eqn:He.
  - assert (Hq : 0 < Zpos p * 10 ^ e10) by (apply Z.leb_le in He; nia).
    destruct (Zpos p * 10 ^ e10) as [|q|q]; try lia.
    apply (binary_round_opp Binary32.prec Binary32.emax false).
  - unfold Binary32.div, SFdiv.
    destruct (SFdiv_core_binary _ _ _ _ _ _) as [[mz ez] lz].
    apply (binary_round_aux_opp Binary32.prec Binary32.emax false).
Qed.

Lemma range_error_opp (r : float) (m e2 e10 : Z) :
  Strtof.range_error (SFopp r) m e2 e10 = Strtof.range_error r m e2 e10.
Proof. destruct r; reflexivity. Qed.

Lemma scan_sign_none (c : ascii) (cs : list ascii) :
  c <> "+"%char -> c <> "-"%char ->
  Strtof.scan_sign (c :: cs) = (false, c :: cs).
Proof.
  intros Hp Hm.
  destruct c as [[] [] [] [] [] [] [] []]; try reflexivity;
    exfalso; solve [apply Hp; reflexivity | apply Hm; reflexivity].
Qed.

(** A minus sign in front of an unsigned argument gives the opposite
    value, and the same exception if there is one. *)
Lemma stof_minus (c : ascii) (t : string) :
  Strtof.isspace c = false -> c <> "+"%char -> c <> "-"%char ->
  stof (String "-" (String c t)) = opposite (stof (String c t)).
Proof.
  intros Hs Hp Hm. unfold stof, Strtof.strtof.
  change (list_ascii_of_string (String "-" (String c t)))
    with ("-"%char :: c :: list_ascii_of_string t).
  change (list_ascii_of_string (String c t))
    with (c :: list_ascii_of_string t).
  set (l := list_ascii_of_string t).
  change (Strtof.skip_space ("-"%char :: c :: l)) with ("-"%char :: c :: l).
  change (Strtof.scan_sign ("-"%char :: c :: l)) with (true, c :: l).
  assert (Hk : Strtof.skip_space (c :: l) = c :: l) by (simpl; now rewrite Hs).
  rewrite Hk, (scan_sign_none c l Hp Hm).
  destruct (Strtof.prefix_nocase ["i"; "n"; "f"]%char (c :: l));
    [reflexivity|].
  destruct (Strtof.prefix_nocase ["n"; "a"; "n"]%char (c :: l));
    [reflexivity|].
  assert (F : forall m e2 e10,
             (let r := Strtof.finite true m e2 e10 in
              if negb (Strtof.converted r) then Throws invalid_argument
              else if Strtof.erange r then Throws out_of_range
              else Returns (Strtof.value r))
             = opposite
                 (let r := Strtof.finite false m e2 e10 in
                  if negb (Strtof.converted r) then Throws invalid_argument
                  else if Strtof.erange r then Throws out_of_range
                  else Returns (Strtof.value r))).
  { intros m e2 e10. unfold Strtof.finite. simpl.
    rewrite nearest_opp, range_error_opp.
    destruct (Strtof.range_error _ _ _ _); reflexivity. }
  destruct (if Strtof.is_hex_prefix (c :: l) then _ else None) as [[m e2]|].
  - apply F.
  - unfold Strtof.scan_decimal.
    destruct (Strtof.scan_mantissa _ _ _) as [[[m nf] rest]|];
      [apply F|reflexivity].
Qed.

(** The clamp commutes with the change of sign: its interval is
    symmetric. *)
Lemma clamp_code_opp (a : axis) (x : double) :
  clamp_code (limit a) (fneg x) = fneg (clamp_code (limit a) x).
Proof.
  unfold clamp_code, std_min, std_max.
  rewrite flt_opp.
  assert (Hi : flt (limit a) (fneg (limit a)) = false) by apply limit_interval.
  assert (Hx : flt (limit a) (fneg x) = flt x (fneg (limit a))).
  { rewrite <- (fneg_involutive (limit a)) at 1. apply flt_opp. }
  destruct (flt (limit a) x) eqn:H1.
  - rewrite Hi.
    assert (H2 : flt x (fneg (limit a)) = false).
    { destruct (flt x (fneg (limit a))) eqn:C; auto.
      assert (B : fle x (limit a) = true).
      { apply (fle_trans _ (fneg (limit a))); [now apply flt_fle|].
        destruct a; reflexivity. }
      apply fle_not_flt in B. congruence. }
    rewrite H2, H1. reflexivity.
  - rewrite Hx. destruct (flt x (fneg (limit a))) eqn:H2.
    + rewrite Hi. symmetry. apply fneg_involutive.
    + now rewrite H1.
Qed.

(** The clamp is monotone. *)
Lemma clamp_monotone (x y lo hi : double) :
  fle lo hi = true -> fle x y = true ->
  fle (clamp x lo hi) (clamp y lo hi) = true.
Proof.
  intros Hb Hxy.
  destruct (fle_not_nan _ _ Hb) as [Nlo Nhi].
  destruct (fle_not_nan _ _ Hxy) as [Nx Ny].
  destruct (clamp_cases x lo hi) as [[X1 ->]|[[X1 [X2 ->]]|[X1 [X2 ->]]]];
    destruct (clamp_cases y lo hi) as [[Y1 ->]|[[Y1 [Y2 ->]]|[Y1 [Y2 ->]]]].
  - now apply fle_refl.
  - exact Hb.
  - now apply not_flt_fle.
  - exfalso.
    assert (B : fle x hi = true).
    { apply (fle_trans _ y); [exact Hxy|].
      apply (fle_trans _ lo); [now apply flt_fle|exact Hb]. }
    apply fle_not_flt in B. congruence.
  - now apply fle_refl.
  - apply (fle_trans _ x); [now apply flt_fle|exact Hxy].
  - exfalso.
    assert (B : fle lo y = true).
    { apply (fle_trans _ x); [now apply not_flt_fle|exact Hxy]. }
    apply fle_not_flt in B. congruence.
  - now apply not_flt_fle.
  - exact Hxy.
Qed.

(** X5. A minus sign put in front of an unsigned argument that parses
    changes the sign of the field and nothing else: the limits are
    symmetric. *)
Theorem X5_minus_sign_gives_opposite_field
        (args args' : list string) (a : axis)
        (c : ascii) (t : string) (v : float) :
  nth_error args (arg_index a) = Some (String c t) ->
  nth_error args' (arg_index a) = Some (String "-" (String c t)) ->
  Strtof.isspace c = false -> c <> "+"%char -> c <> "-"%char ->
  stof (String c t) = Returns v ->
  exists msg msg',
    getCommandMsg args = Returns msg
    /\ getCommandMsg args' = Returns msg'
    /\ field a msg' = fneg (field a msg).
Proof.
  intros Hs Hs' Hc Hp Hm Hv.
  destruct (field_getCommandMsg args a) as [msg [E F]].
  destruct (field_getCommandMsg args' a) as [msg' [E' F']].
  exists msg, msg'. split; [exact E|]. split; [exact E'|].
  rewrite F, F', Hs, Hs'. unfold component.
  rewrite (stof_minus c t Hc Hp Hm), Hv. cbn [opposite].
  change (clamp_code (limit a) (double_of_float (SFopp v))
          = fneg (clamp_code (limit a) (double_of_float v))).
  rewrite double_of_float_opp. apply clamp_code_opp.
Qed.

Lemma X5_minus_sign_gives_opposite_field_witness :
  exists msg msg',
    getCommandMsg ["j5_interface"; "2.5"; "7"]%string = Returns msg
    /\ getCommandMsg ["j5_interface"; "2.5"; "-7"]%string = Returns msg'
    /\ field Angular msg' = fneg (field Angular msg).
Proof.
  apply (X5_minus_sign_gives_opposite_field
           ["j5_interface"; "2.5"; "7"]%string
           ["j5_interface"; "2.5"; "-7"]%string
           Angular "7"%char ""%string (S754_finite false 14680064 (-21))).
  - reflexivity.
  - reflexivity.
  - reflexivity.
  - discriminate.
  - discriminate.
  - vm_compute. reflexivity.
Defined.

(** X6. The command is monotone in the parsed value: of two arguments
    that parse, the one with the larger value never gives the smaller
    field. *)
Theorem X6_field_is_monotone
        (args args' : list string) (a : axis) (s s' : string) (v w : float) :
  nth_error args (arg_index a) = Some s ->
  nth_error args' (arg_index a) = Some s' ->
  stof s = Returns v ->
  stof s' = Returns w ->
  fle (double_of_float v) (double_of_float w) = true ->
  exists msg msg',
    getCommandMsg args = Returns msg
    /\ getCommandMsg args' = Returns msg'
    /\ fle (field a msg) (field a msg') = true.
Proof.
  intros Hs Hs' Hv Hw Hvw.
  destruct (field_getCommandMsg args a) as [msg [E F]].
  destruct (field_getCommandMsg args' a) as [msg' [E' F']].
  exists msg, msg'. split; [exact E|]. split; [exact E'|].
  rewrite F, F', Hs, Hs'.
  rewrite (component_parsed a s v Hv), (component_parsed a s' w Hw).
  apply clamp_monotone; [destruct a; reflexivity|exact Hvw].
Qed.

Lemma X6_field_is_monotone_witness :
  exists msg msg',
    getCommandMsg ["j5_interface"; "2.5"]%string = Returns msg
    /\ getCommandMsg ["j5_interface"; "10.0"]%string = Returns msg'
    /\ fle (field Linear msg) (field Linear msg') = true.
Proof.
  apply (X6_field_is_monotone
           ["j5_interface"; "2.5"]%string ["j5_interface"; "10.0"]%string
           Linear "2.5"%string "10.0"%string
           (S754_finite false 10485760 (-22))
           (S754_finite false 10485760 (-20))).
  - reflexivity.
  - reflexivity.
  - vm_compute. reflexivity.
  - vm_compute. reflexivity.
  - reflexivity.
Defined.

(** X7. Each field depends on its own argument only: whatever the other
    argument is (absent, failing to parse, a NaN), two argument lists
    with the same argument at the index of a field give that field the
    same value. *)
Theorem X7_fields_are_independent
        (args args' : list string) (a : axis) :
  nth_error args (arg_index a) = nth_error args' (arg_index a) ->
  exists msg msg',
    getCommandMsg args = Returns msg
    /\ getCommandMsg args' = Returns msg'
    /\ field a msg = field a msg'.
Proof.
  intros H.
  destruct (field_getCommandMsg args a) as [msg [E F]].
  destruct (field_getCommandMsg args' a) as [msg' [E' F']].
  exists msg, msg'. split; [exact E|]. split; [exact E'|].
  now rewrite F, F', H.
Qed.

Lemma X7_fields_are_independent_witness :
  exists msg msg',
    getCommandMsg ["j5_interface"; "abc"; "0.3"]%string = Returns msg
    /\ getCommandMsg ["j5_interface"; "nan"; "0.3"; "more"]%string
       = Returns msg'
    /\ field Angular msg = field Angular msg'.
Proof.
  apply (X7_fields_are_independent
           ["j5_interface"; "abc"; "0.3"]%string
           ["j5_interface"; "nan"; "0.3"; "more"]%string Angular).
  reflexivity.
Defined.

(** X8. The fields [linear.y], [linear.z], [angular.x] and [angular.y]
    of the returned message are 0.0 for every argument list. *)
Theorem X8_unused_fields_are_zero (args : list string) :
  exists msg,
    getCommandMsg args = Returns msg
    /\ Forall (fun v => v = zero) (unused_fields msg).
Proof.
  eexists. split; [apply getCommandMsg_eq|].
  repeat constructor.
Qed.

(* ================================================================== *)
(** * The publish loop and the status callback: further properties *)
(* ================================================================== *)

Lemma run_snoc (evs : list event) (ev : event) (n : Node) :
  run (evs ++ [ev]) n = step (run evs n) ev.
Proof. now rewrite run_app. Qed.

Lemma deliveries_app (evs evs' : list event) :
  deliveries (evs ++ evs') = deliveries evs ++ deliveries evs'.
Proof.
  induction evs as [|[ok|msg] evs IH]; simpl; auto. now rewrite IH.
Qed.

Lemma is_status_status_record (msg : j5StatusMsg) :
  is_status (status_record msg) = true /\ is_sending (status_record msg) = false.
Proof. split; reflexivity. Qed.

Lemma is_status_sending_record (c : Twist) :
  is_status (sending_record c) = false /\ is_sending (sending_record c) = true.
Proof. split; reflexivity. Qed.

(** A step of the main thread logs at most a "Sending" record. *)
Lemma main_step_status_log (ok : bool) (n : Node) :
  filter is_status (rosout (world (main_step ok n)))
  = filter is_status (rosout (world n)).
Proof.
  destruct n as [p c sp [lg pub]]. unfold main_step. simpl.
  destruct p; simpl; try reflexivity.
  - destruct ok; reflexivity.
  - rewrite filter_app. simpl. apply app_nil_r.
Qed.

(** Leaving the Running phase is for good. *)
Lemma step_not_running (n : Node) (ev : event) :
  phase_of n <> Running ->
  phase_of (step n ev) <> Running
  /\ j5_cmd (world (step n ev)) = j5_cmd (world n).
Proof.
  destruct n as [p c sp [lg pub]]. unfold phase_of. simpl.
  destruct ev as [ok|msg]; simpl.
  - unfold main_step. simpl.
    destruct p; simpl; intros H; try (exfalso; apply H; reflexivity);
      split; try discriminate; reflexivity.
  - destruct sp; simpl; auto.
Qed.

Lemma step_running_before (n : Node) (ev : event) :
  phase_of (step n ev) = Running -> phase_of n = Running.
Proof.
  intros H. destruct (phase_of n) eqn:E; try reflexivity; exfalso;
    (assert (N : phase_of n <> Running) by (rewrite E; discriminate));
    apply (step_not_running n ev) in N; destruct N as [N _]; auto.
Qed.

Lemma step_exit_status_zero (n : Node) (ev : event) :
  exit_status_zero n -> exit_status_zero (step n ev).
Proof.
  destruct n as [p c sp w]. unfold exit_status_zero.
  destruct ev as [ok|msg]; simpl.
  - unfold main_step. simpl.
    destruct p; simpl; auto. destruct ok; simpl; auto.
  - destruct sp; simpl; auto.
Qed.

Lemma step_sending_matches_published (c : Twist) (n : Node) (ev : event) :
  sending_matches_published c n -> sending_matches_published c (step n ev).
Proof.
  destruct n as [p c' sp [lg pub]]. unfold sending_matches_published.
  simpl. intros [-> H].
  destruct ev as [ok|msg]; simpl.
  - unfold main_step, pending_publish in *. simpl in *.
    destruct p; simpl in *; try (split; [reflexivity|exact H]).
    + destruct ok; simpl; split; try reflexivity; exact H.
    + split; [reflexivity|].
      rewrite filter_app, H. simpl.
      rewrite Nat.add_0_r, Nat.add_1_r. simpl. symmetry. apply repeat_cons.
    + split; [reflexivity|].
      rewrite H, length_app. simpl.
      rewrite Nat.add_0_r. reflexivity.
  - destruct sp; simpl; split; try reflexivity; try exact H.
    rewrite filter_app, H. simpl. apply app_nil_r.
Qed.

Lemma step_same_main_thread (n n' : Node) (ev : event) :
  same_main_thread n n' ->
  same_main_thread (step n ev)
                   (if is_main_step ev then step n' ev else n').
Proof.
  destruct n as [p c sp [lg pub]], n' as [p' c' sp' [lg' pub']].
  unfold same_main_thread. simpl.
  intros [<- [<- [<- [<- H]]]].
  destruct ev as [ok|msg]; simpl.
  - unfold main_step. simpl.
    destruct p, ok; simpl; repeat split;
      solve [ reflexivity | exact H | rewrite !filter_app, H; reflexivity ].
  - destruct sp; simpl; repeat split;
      solve [ reflexivity | exact H
            | rewrite filter_app, H; simpl; apply app_nil_r ].
Qed.

(** X9. Whenever [main] has returned, it has returned 0 and the spinner
    has been stopped: there is no other exit status. *)
Theorem X9_main_returns_zero
        (args : list string) (evs : list event) (n0 : Node) (z : Z) :
  main_start args = Returns n0 ->
  at_pc (run evs n0) = Exited z ->
  z = 0 /\ spinning (run evs n0) = false.
Proof.
  intros Hstart Hexit.
  pose proof (run_preserves exit_status_zero step_exit_status_zero evs n0)
    as Hz.
  pose proof (run_preserves spinner_consistent step_spinner_consistent evs n0)
    as Hs.
  destruct (main_start_eq args) as [c [_ E]].
  rewrite E in Hstart. injection Hstart as <-.
  specialize (Hz I). specialize (Hs eq_refl).
  unfold exit_status_zero in Hz. unfold spinner_consistent in Hs.
  rewrite Hexit in Hz, Hs. auto.
Qed.

Lemma X9_main_returns_zero_witness :
  0 = 0
  /\ spinning (run [MainStep false; MainStep true; MainStep true;
                    MainStep true] scenario_node) = false.
Proof.
  apply (X9_main_returns_zero
           scenario_args
           [MainStep false; MainStep true; MainStep true; MainStep true]
           scenario_node 0).
  - unfold main_start. rewrite getCommandMsg_eq. reflexivity.
  - reflexivity.
Defined.

(** X10. Once the loop has been left (the node is shutting down or
    terminated), no schedule brings it back to Running and nothing more
    is published. *)
Theorem X10_nothing_published_after_the_loop (n : Node) (evs : list event) :
  phase_of n <> Running ->
  phase_of (run evs n) <> Running
  /\ j5_cmd (world (run evs n)) = j5_cmd (world n).
Proof.
  revert n. induction evs as [|ev evs IH]; intros n H; [now split|].
  destruct (step_not_running n ev H) as [H1 H2].
  destruct (IH (step n ev) H1) as [H3 H4].
  split; [exact H3|]. change (run (ev :: evs) n) with (run evs (step n ev)).
  now rewrite H4.
Qed.

Lemma X10_nothing_published_after_the_loop_witness :
  phase_of (run [MainStep true; StatusDelivered scenario_status;
                 MainStep true; MainStep true; MainStep true]
                (goto AtSpinnerStop scenario_node)) <> Running
  /\ j5_cmd (world (run [MainStep true; StatusDelivered scenario_status;
                         MainStep true; MainStep true; MainStep true]
                        (goto AtSpinnerStop scenario_node)))
     = j5_cmd (world (goto AtSpinnerStop scenario_node)).
Proof.
  apply (X10_nothing_published_after_the_loop
           (goto AtSpinnerStop scenario_node)).
  discriminate.
Defined.

(** X11. The node does not stop by itself: as long as [ros::ok()]
    answers true each time it is asked, the node stays Running, whatever
    status messages arrive. *)
Theorem X11_running_while_ros_ok (n : Node) (evs : list event) :
  phase_of n = Running ->
  always_ok evs = true ->
  phase_of (run evs n) = Running.
Proof.
  revert n. induction evs as [|ev evs IH]; intros n Hn Hok; [exact Hn|].
  simpl in Hok. apply andb_prop in Hok. destruct Hok as [Hev Hok].
  change (run (ev :: evs) n) with (run evs (step n ev)).
  apply IH; [|exact Hok].
  destruct n as [p c sp w]. unfold phase_of in *. simpl in *.
  destruct ev as [ok|msg]; simpl.
  - subst ok. unfold main_step. simpl.
    destruct p; simpl; try discriminate Hn; reflexivity.
  - destruct sp; simpl; exact Hn.
Qed.

Lemma X11_running_while_ros_ok_witness :
  phase_of (run (iterations 3 ++ [StatusDelivered scenario_status;
                                  MainStep true])
                scenario_node) = Running.
Proof.
  apply (X11_running_while_ros_ok scenario_node); reflexivity.
Defined.

(** X12. While the node is Running, the status records in its log are
    those of the messages delivered, one for each delivery and in the
    order of delivery: nothing is filtered, merged or reordered. *)
Theorem X12_status_log_is_the_deliveries
        (args : list string) (evs : list event) (n0 : Node) :
  main_start args = Returns n0 ->
  phase_of (run evs n0) = Running ->
  filter is_status (rosout (world (run evs n0)))
  = map status_record (deliveries evs).
Proof.
  intros Hstart.
  assert (H0 : filter is_status (rosout (world n0)) = []).
  { destruct (main_start_eq args) as [c [_ E]].
    rewrite E in Hstart. now injection Hstart as <-. }
  induction evs as [|ev evs IH] using rev_ind; intros Hrun; [exact H0|].
  rewrite run_snoc in *.
  pose proof (step_running_before _ _ Hrun) as Hprev.
  specialize (IH Hprev).
  rewrite deliveries_app, map_app, <- IH.
  destruct ev as [ok|msg]; simpl deliveries; simpl map.
  - rewrite app_nil_r. apply main_step_status_log.
  - assert (Hsp : spinning (run evs n0) = true).
    { apply running_spinning; [|exact Hprev].
      apply (run_preserves spinner_consistent step_spinner_consistent).
      apply (main_start_invariants args n0 Hstart). }
    simpl. rewrite Hsp. simpl. rewrite filter_app. reflexivity.
Qed.

Lemma X12_status_log_is_the_deliveries_witness :
  filter is_status
    (rosout (world (run [MainStep true; StatusDelivered scenario_status;
                         MainStep true; StatusDelivered scenario_status]
                        scenario_node)))
  = map status_record
        (deliveries [MainStep true; StatusDelivered scenario_status;
                     MainStep true; StatusDelivered scenario_status]).
Proof.
  apply (X12_status_log_is_the_deliveries scenario_args).
  - unfold main_start. rewrite getCommandMsg_eq. reflexivity.
  - reflexivity.
Defined.

(** X13. Every message published has been announced in the log: the
    "Sending" records of the log all carry the command computed at
    startup, and there are as many as messages published, plus one when
    the main thread stands between the record and the publication. *)
Theorem X13_every_publication_is_logged
        (args : list string) (evs : list event) :
  exists c n0,
    getCommandMsg args = Returns c
    /\ main_start args = Returns n0
    /\ filter is_sending (rosout (world (run evs n0)))
       = repeat (sending_record c)
                (List.length (j5_cmd (world (run evs n0)))
                 + pending_publish (run evs n0)).
Proof.
  destruct (main_start_eq args) as [c [Hc Hn]].
  exists c, (loop_entry c). split; [exact Hc|]. split; [exact Hn|].
  apply (run_preserves (sending_matches_published c)
                       (step_sending_matches_published c)).
  split; reflexivity.
Qed.

(** X14. Status traffic does not disturb the publish path: a schedule
    and the same schedule without its status deliveries leave the main
    thread at the same place, with the same command, the same messages
    published and the same "Sending" records logged. *)
Theorem X14_deliveries_do_not_disturb_publishing
        (n : Node) (evs : list event) :
  same_main_thread (run evs n) (run (main_steps evs) n).
Proof.
  assert (G : forall evs n n',
             same_main_thread n n' ->
             same_main_thread (run evs n) (run (main_steps evs) n')).
  { clear. induction evs as [|ev evs IH]; intros n n' H; [exact H|].
    pose proof (step_same_main_thread n n' ev H) as S.
    destruct ev as [ok|msg]; simpl in *; apply IH; exact S. }
  apply G. repeat split; reflexivity.
Qed.

Lemma run_exited (evs : list event) (n : Node) (z : Z) :
  at_pc n = Exited z -> at_pc (run evs n) = Exited z.
Proof.
  revert n. induction evs as [|ev evs IH]; intros n H; [exact H|].
  change (run (ev :: evs) n) with (run evs (step n ev)). apply IH.
  destruct n as [p c sp w]. simpl in *. subst p.
  destruct ev as [ok|msg]; simpl; [reflexivity|].
  destruct sp; reflexivity.
Qed.

(** X15. The shutdown completes whatever the callbacks do: a node that
    has left the loop has returned 0 from [main] as soon as the main
    thread has run the statements it has left (at most three), however
    many status deliveries are scheduled in between. *)
Theorem X15_shutdown_completes (n : Node) (evs : list event) :
  phase_of n = ShuttingDown ->
  (steps_to_exit n <= List.length (main_steps evs))%nat ->
  at_pc (run evs n) = Exited 0.
Proof.
  revert n. induction evs as [|ev evs IH]; intros n Hph Hlen.
  - exfalso. destruct n as [p c sp w].
    unfold phase_of, steps_to_exit in *. simpl in *.
    destruct p; try discriminate Hph; lia.
  - change (run (ev :: evs) n) with (run evs (step n ev)).
    destruct n as [p c sp w].
    unfold phase_of, steps_to_exit in *. simpl in Hph, Hlen.
    destruct ev as [ok|msg].
    + simpl in Hlen.
      destruct p; try discriminate Hph; simpl.
      * apply IH; [reflexivity|]. unfold steps_to_exit. simpl. lia.
      * apply IH; [reflexivity|]. unfold steps_to_exit. simpl. lia.
      * apply run_exited. reflexivity.
    + simpl in Hlen.
      assert (E : step {| at_pc := p; cmdMsg := c; spinning := sp;
                          world := w |} (StatusDelivered msg)
                  = {| at_pc := p; cmdMsg := c; spinning := sp;
                       world := if sp then statusMsgHandler msg w else w |}).
      { simpl. destruct sp; reflexivity. }
      rewrite E. apply IH; [exact Hph|exact Hlen].
Qed.

Lemma X15_shutdown_completes_witness :
  at_pc (run [StatusDelivered scenario_status; MainStep true;
              StatusDelivered scenario_status; MainStep true;
              MainStep true]
             (goto AtSpinnerStop scenario_node)) = Exited 0.
Proof.
  apply (X15_shutdown_completes (goto AtSpinnerStop scenario_node)).
  - reflexivity.
  - vm_compute. lia.
Defined.
